(** * GPT-2 evaluation harness (examples/onnxrt/onnx_model_zoo/gpt2/gpt2.py)

    A shallow embedding of [TextDataset.__init__] and [evaluate], and the
    properties of the token-block cache and of the scoring loop. *)

From Stdlib Require Import ZArith List String Ascii Lia.
From Stdlib Require Import DecimalString DecimalZ.
From Stdlib Require Import Reals Lra.
From stdpp Require Import base option list gmap strings.

Local Open Scope Z_scope.
#[local] Set Warnings "-clear-no-such-hyp".

(** ** Python exceptions and the error monad *)

Inductive exn : Type :=
| AssertionError
| ZeroDivisionError
| ValueError
| IndexError
| OSError
| UnpicklingError
| UnicodeDecodeError
| RuntimeError.

Inductive result (A : Type) : Type :=
| OK (a : A)
| Raise (e : exn).
Arguments OK {A} a.
Arguments Raise {A} e.

#[global] Instance result_ret : MRet result := fun A a => OK a.
#[global] Instance result_bind : MBind result := fun A B k m =>
  match m with
  | OK a => k a
  | Raise e => Raise e
  end.

(** ** The Python built-ins the program uses *)

Module Py.

(** The [n] elements of a range that begins at [start]. *)
Fixpoint range_up (n : nat) (start step : Z) : list Z :=
  match n with
  | O => []
  | S n' => start :: range_up n' (start + step) step
  end.

(** [range(start, stop, step)]: a zero step is a [ValueError]; a negative
    step counts down while the index stays above [stop]. *)
Definition range (start stop step : Z) : result (list Z) :=
  if step =? 0 then Raise ValueError
  else if 0 <? step then
    OK (range_up (Z.to_nat ((stop - start + step - 1) / step)) start step)
  else
    OK (range_up (Z.to_nat ((start - stop - step - 1) / (- step))) start step).

(** [l[i:j]] for indices [0 <= i <= j]. *)
Definition slice {A} (l : list A) (i j : Z) : list A :=
  firstn (Z.to_nat (j - i)) (skipn (Z.to_nat i) l).

Definition len {A} (l : list A) : Z := Z.of_nat (length l).

(** [str(n)] for an [int]. *)
Definition str (n : Z) : string := NilZero.string_of_int (Z.to_int n).

(** [s.rfind("/") + 1]: the index just after the last separator. *)
Fixpoint after_last_sep (s : string) : option string :=
  match s with
  | EmptyString => None
  | String c s' =>
      match after_last_sep s' with
      | Some t => Some t
      | None => if Ascii.eqb c "/" then Some s' else None
      end
  end.

(** [s.rstrip("/")]. *)
Fixpoint rstrip_sep (s : string) : string :=
  match s with
  | EmptyString => EmptyString
  | String c s' =>
      match rstrip_sep s' with
      | EmptyString => if Ascii.eqb c "/" then EmptyString else String c EmptyString
      | r => String c r
      end
  end.

(** The first component of [os.path.split(p)]: the text up to the last
    separator, without its trailing separators unless it has nothing else. *)
Definition path_head (p : string) : string :=
  match after_last_sep p with
  | Some t =>
      let head := substring 0 (String.length p - String.length t) p in
      match rstrip_sep head with
      | EmptyString => head
      | r => r
      end
  | None => EmptyString
  end.

(** The second component of [os.path.split(p)]. *)
Definition path_tail (p : string) : string :=
  match after_last_sep p with
  | Some t => t
  | None => p
  end.

Definition startswith_sep (p : string) : bool :=
  match p with
  | String c _ => Ascii.eqb c "/"
  | EmptyString => false
  end.

Fixpoint endswith_sep (p : string) : bool :=
  match p with
  | EmptyString => false
  | String c EmptyString => Ascii.eqb c "/"
  | String _ p' => endswith_sep p'
  end.

(** [os.path.join(a, b)] (posixpath). *)
Definition path_join (a b : string) : string :=
  if startswith_sep b then b
  else if (String.eqb a "" || endswith_sep a)%bool then a +:+ b
  else a +:+ "/" +:+ b.

End Py.

(** ** The cache key (gpt2.py, lines 57-61) *)

Definition cache_dir : string := "./dataset_cached".

Definition cached_features_file (model_name_or_path : string) (block_size : Z)
    (file_path : string) : string :=
  let filename := Py.path_tail file_path in
  Py.path_join cache_dir
    (model_name_or_path +:+ "_cached_lm_" +:+ Py.str block_size +:+ "_" +:+ filename).


(** ** Command-line arguments ([args]) *)

Record Args : Type := {
  model_name_or_path : string;
  eval_data_file : string;
  block_size : Z;
  per_gpu_eval_batch_size : Z;
  n_gpu : Z;
  overwrite_cache : bool;
  benchmark : bool;
  mode : string;
  warmup_steps : Z;
  iter : Z;
}.

(** ** External collaborators of the dataset builder *)

(** The byte contents of files, with the two codecs the builder uses:
    reading a text file as UTF-8 and [pickle]. *)
Class Codec : Type := {
  bytes : Type;
  utf8_decode : bytes -> result string;
  pickle_dumps : list (list Z) -> bytes;
  pickle_loads : bytes -> result (list (list Z));
}.

(** [pickle.load] gives back what [pickle.dump] was given. *)
Class PickleRoundTrip `{Codec} : Prop :=
  pickle_round_trip : forall examples, pickle_loads (pickle_dumps examples) = OK examples.

(** The tokenizer methods the builder calls. *)
Record Tokenizer : Type := {
  tokenize : string -> list string;
  convert_tokens_to_ids : list string -> list Z;
  build_inputs_with_special_tokens : list Z -> list Z;
}.

(** [GPT2Tokenizer], the only entry of [MODEL_CLASSES], keeps the inherited
    [build_inputs_with_special_tokens], which returns a single sequence of
    ids unchanged. *)
Definition gpt2_special_tokens (tokenizer : Tokenizer) : Prop :=
  forall ids, build_inputs_with_special_tokens tokenizer ids = ids.

(** ** The file system, keyed by path strings *)

(** A path is looked up as it is spelled: [.], [..] and doubled separators
    are not resolved, so two spellings of one path are two entries here. *)

Inductive node `{Codec} : Type :=
| Dir
| File (data : bytes).

(** What a run leaves behind besides files: the log lines of the builder and
    the calls it makes to the tokenizer. *)
Inductive event : Type :=
| LogLoading (cached_features_file : string)
| LogCreating (directory : string)
| CallTokenize (text : string)
| LogSaving (cached_features_file : string).

Record world `{Codec} : Type := {
  fs : gmap string node;
  trace : list event;
}.

Module os.

Section FileSystem.
Context `{Codec}.

Definition isfile (fs : gmap string node) (p : string) : bool :=
  match fs !! p with
  | Some (File _) => true
  | _ => false
  end.

Definition exists_ (fs : gmap string node) (p : string) : bool :=
  match fs !! p with
  | Some _ => true
  | None => false
  end.

(** [os.makedirs(p)]: an existing path is a [FileExistsError]. *)
Definition makedirs (fs : gmap string node) (p : string) : result (gmap string node) :=
  match fs !! p with
  | Some _ => Raise OSError
  | None => OK (<[p := Dir]> fs)
  end.

(** [open(p, 'rb').read()]. *)
Definition read (fs : gmap string node) (p : string) : result bytes :=
  match fs !! p with
  | Some (File data) => OK data
  | _ => Raise OSError
  end.

(** The directory a new file goes into has to be there. *)
Definition parent_exists (fs : gmap string node) (p : string) : bool :=
  let parent := Py.path_head p in
  match Py.rstrip_sep parent with
  | EmptyString => true
  | _ => match fs !! parent with
         | Some Dir => true
         | _ => false
         end
  end.

(** [open(p, 'wb').write(data)]. *)
Definition write (fs : gmap string node) (p : string) (data : bytes)
  : result (gmap string node) :=
  match fs !! p with
  | Some Dir => Raise OSError
  | _ => if parent_exists fs p then OK (<[p := File data]> fs) else Raise OSError
  end.

End FileSystem.

End os.

(** ** [TextDataset.__init__] (gpt2.py, lines 55-84) *)

Section TextDataset.
Context `{Codec}.

Definition log (w : world) (fs' : gmap string node) (events : list event) : world :=
  {| fs := fs'; trace := trace w ++ events |}.

(** The loop of lines 76-77: one block per start index. *)
Definition blocks (tokenizer : Tokenizer) (tokenized_text : list Z) (block_size : Z)
  : result (list (list Z)) :=
  starts ← Py.range 0 (Py.len tokenized_text - block_size + 1) block_size;
  mret (map (fun i => build_inputs_with_special_tokens tokenizer
                        (Py.slice tokenized_text i (i + block_size))) starts).

Definition TextDataset (tokenizer : Tokenizer) (args : Args) (file_path : string)
    (block_size : Z) (w : world) : result (list (list Z) * world) :=
  if negb (os.isfile (fs w) file_path) then Raise AssertionError else
  let directory := Py.path_head file_path in
  fs1 ← (if negb (os.exists_ (fs w) cache_dir) then os.makedirs (fs w) cache_dir
         else OK (fs w));
  let cached_features_file :=
    cached_features_file (model_name_or_path args) block_size file_path in
  if os.exists_ fs1 cached_features_file && negb (overwrite_cache args) then
    data ← os.read fs1 cached_features_file;
    examples ← pickle_loads data;
    mret (examples, log w fs1 [LogLoading cached_features_file])
  else
    data ← os.read fs1 file_path;
    text ← utf8_decode data;
    let tokenized_text := convert_tokens_to_ids tokenizer (tokenize tokenizer text) in
    examples ← blocks tokenizer tokenized_text block_size;
    fs2 ← os.write fs1 cached_features_file (pickle_dumps examples);
    mret (examples,
          log w fs2 [LogCreating directory; CallTokenize text; LogSaving cached_features_file]).

Definition load_and_cache_examples (args : Args) (tokenizer : Tokenizer) (w : world)
  : result (list (list Z) * world) :=
  TextDataset tokenizer args (eval_data_file args) (block_size args) w.

Definition is_tokenize (e : event) : bool :=
  match e with
  | CallTokenize _ => true
  | _ => false
  end.

(** The number of tokenizer calls a run has made. *)
Definition tokenizer_calls (w : world) : nat :=
  length (List.filter is_tokenize (trace w)).

End TextDataset.

(** ** Floating-point arithmetic

    Python floats and torch scalars, through the operations the program
    applies to them.  Nothing is assumed about the operations, so what is
    proved holds for IEEE arithmetic as well as for the reals. *)

Class Arith : Type := {
  float : Type;
  float_of_int : Z -> float;
  fadd : float -> float -> float;
  fsub : float -> float -> float;
  fmul : float -> float -> float;
  fdiv : float -> float -> float;
  fneg : float -> float;
  fis_zero : float -> bool;
  fexp : float -> float;
  flog : float -> float;
  to_float32 : float -> float;
}.

Section Arithmetic.
Context `{Arith}.

(** The literal [0.0]. *)
Definition fzero : float := float_of_int 0.

(** [n / x] for an [int] over a [float]. *)
Definition div_int_float (n : Z) (x : float) : result float :=
  if fis_zero x then Raise ZeroDivisionError else OK (fdiv (float_of_int n) x).

(** [x / n] for a [float] over an [int]. *)
Definition div_float_int (x : float) (n : Z) : result float :=
  if n =? 0 then Raise ZeroDivisionError else OK (fdiv x (float_of_int n)).

Definition fsum (l : list float) : float := fold_left fadd l fzero.

End Arithmetic.

(** ** Tensors: a shape and the elements in row-major order *)

Record tensor (A : Type) : Type := {
  shape : list nat;
  data : list A;
}.
Arguments shape {A} t.
Arguments data {A} t.

Definition numel (s : list nat) : nat := fold_right Nat.mul 1%nat s.

(** [k] consecutive chunks of [n] elements. *)
Fixpoint chunks {A} (k n : nat) (l : list A) : list (list A) :=
  match k with
  | O => []
  | S k' => firstn n l :: chunks k' n (skipn n l)
  end.

(** [np.expand_dims(t, axis=0)]. *)
Definition expand_dims {A} (t : tensor A) : tensor A :=
  {| shape := 1%nat :: shape t; data := data t |}.

Fixpoint split_last {A} (l : list A) : option (list A * A) :=
  match l with
  | [] => None
  | [x] => Some ([], x)
  | x :: l' => match split_last l' with
               | Some (pre, y) => Some (x :: pre, y)
               | None => None
               end
  end.

(** [t[..., :-1, :]]: the last row of every matrix is dropped. *)
Definition drop_last_row {A} (t : tensor A) : result (tensor A) :=
  match split_last (shape t) with
  | Some (s, v) =>
      match split_last s with
      | Some (pre, p) =>
          OK {| shape := pre ++ [(p - 1)%nat; v];
                data := concat (map (firstn ((p - 1) * v))
                                    (chunks (numel pre) (p * v) (data t))) |}
      | None => Raise IndexError
      end
  | None => Raise IndexError
  end.

(** [t[..., 1:]]: the first element of every row is dropped. *)
Definition drop_first_col {A} (t : tensor A) : result (tensor A) :=
  match split_last (shape t) with
  | Some (pre, b) =>
      OK {| shape := pre ++ [(b - 1)%nat];
            data := concat (map (skipn 1) (chunks (numel pre) b (data t))) |}
  | None => Raise IndexError
  end.

(** [t.size(-1)]. *)
Definition size_last {A} (t : tensor A) : result nat :=
  match split_last (shape t) with
  | Some (_, v) => OK v
  | None => Raise IndexError
  end.

(** [t.view(-1, v)]. *)
Definition view_rows {A} (t : tensor A) (v : nat) : result (tensor A) :=
  match v with
  | O => Raise RuntimeError
  | _ => if (numel (shape t) mod v =? 0)%nat
         then OK {| shape := [(numel (shape t) / v)%nat; v]; data := data t |}
         else Raise RuntimeError
  end.

(** [t.view(-1)]. *)
Definition view_flat {A} (t : tensor A) : tensor A :=
  {| shape := [numel (shape t)]; data := data t |}.

(** ** [torch.nn.CrossEntropyLoss(ignore_index)], mean reduction *)

Section CrossEntropy.
Context `{Arith}.

(** The loss of one row of logits against the class [y]:
    minus the logarithm of its softmax probability. *)
Definition nll (row : list float) (y : Z) : float :=
  fneg (flog (fdiv (fexp (nth (Z.to_nat y) row fzero)) (fsum (map fexp row)))).

(** The rows whose label is not [ignore_index]. *)
Definition scored (ignore_index : Z) (pairs : list (list float * Z)) : list (list float * Z) :=
  List.filter (fun '(_, y) => negb (y =? ignore_index)) pairs.

Fixpoint row_losses (v : nat) (pairs : list (list float * Z)) : result (list float) :=
  match pairs with
  | [] => OK []
  | (row, y) :: rest =>
      if (0 <=? y) && (y <? Z.of_nat v) then
        ls ← row_losses v rest;
        mret (nll row y :: ls)
      else Raise IndexError
  end.

Definition CrossEntropyLoss (ignore_index : Z) (input : tensor float) (target : tensor Z)
  : result float :=
  match shape input, shape target with
  | [n; v], [n'] =>
      if (n =? n')%nat then
        let pairs := zip (chunks n v (data input)) (data target) in
        ls ← row_losses v (scored ignore_index pairs);
        mret (fdiv (fsum ls) (float_of_int (Py.len ls)))
      else Raise ValueError
  | _, _ => Raise ValueError
  end.

End CrossEntropy.

(** ** [torch.utils.data.DataLoader] over a [SequentialSampler] *)

(** The batches in dataset order; the last one may be short. *)
Fixpoint batched {A} (fuel n : nat) (l : list A) : list (list A) :=
  match fuel with
  | O => []
  | S fuel' =>
      match l with
      | [] => []
      | _ => firstn n l :: batched fuel' n (skipn n l)
      end
  end.

Definition DataLoader (dataset : list (list Z)) (batch_size : Z) : result (list (list (list Z))) :=
  if batch_size <=? 0 then Raise ValueError
  else OK (batched (length dataset) (Z.to_nat batch_size) dataset).

(** The default collate function stacks the blocks of a batch, which have to
    be of one length. *)
Definition collate (batch : list (list Z)) : result (tensor Z) :=
  match batch with
  | [] => Raise RuntimeError
  | b :: _ =>
      if forallb (fun b' => (length b' =? length b)%nat) batch
      then OK {| shape := [length batch; length b]; data := concat batch |}
      else Raise RuntimeError
  end.

(** ** [evaluate] (gpt2.py, lines 97-175) *)

(** The session onnxruntime opens on the serialized model. *)
Record InferenceSession `{Arith} : Type := {
  get_inputs : list string;
  get_outputs : list string;
  run : gmap string (tensor Z) -> result (list (tensor float));
}.

(** What the run prints and logs from the loop on. *)
Inductive output `{Arith} : Type :=
| PrintLatency (ms : float)
| PrintThroughput (perf : float)
| LogNoPerformance
| LogPerplexity (perplexity : float)
| PrintBatchSize (eval_batch_size : Z)
| PrintAccuracy (accuracy : float).

(** A computation that prints, and then returns or raises. *)
Record io `{Arith} (A : Type) : Type := IO {
  printed : list output;
  outcome : result A;
}.
Arguments IO {_ A} printed outcome.
Arguments printed {_ A} _.
Arguments outcome {_ A} _.

Section Evaluate.
Context `{Arith}.

#[global] Instance io_ret : MRet io := fun A a => IO [] (OK a).
#[global] Instance io_bind : MBind io := fun A B k m =>
  match outcome m with
  | OK a => IO (printed m ++ printed (k a)) (outcome (k a))
  | Raise e => IO (printed m) (Raise e)
  end.

Definition emit (o : output) : io unit := IO [o] (OK ()).
Definition lift {A} (r : result A) : io A := IO [] r.

Record eval_state : Type := {
  eval_loss : float;
  nb_eval_steps : Z;
  total_time : float;
  ort_inputs : gmap string (tensor Z);
  ticks : nat;
}.

(** Lines 130-133: every declared input gets the batch, expanded once more
    at each turn of the loop. *)
Fixpoint bind_inputs (inputs_names : list string) (inputs : tensor Z)
    (ort_inputs : gmap string (tensor Z)) : gmap string (tensor Z) :=
  match inputs_names with
  | [] => ort_inputs
  | name :: rest =>
      let inputs := expand_dims inputs in
      bind_inputs rest inputs (<[name := inputs]> ort_inputs)
  end.

(** Lines 134-135. *)
Definition lm_logits_of (predictions : list (tensor float)) : result (tensor float) :=
  match predictions with
  | lm_logits :: _ => OK lm_logits
  | [] => Raise IndexError
  end.

(** Lines 138-143. *)
Definition lm_loss_of (lm_logits : tensor float) (labels : tensor Z) : result float :=
  shift_logits ← drop_last_row lm_logits;
  shift_labels ← drop_first_col labels;
  v ← size_last shift_logits;
  input ← view_rows shift_logits v;
  CrossEntropyLoss (-1) input (view_flat shift_labels).

(** Lines 127-143: the forward pass on one batch and its loss. *)
Definition forward (session : InferenceSession) (ort_inputs : gmap string (tensor Z))
    (batch : list (list Z)) : result (gmap string (tensor Z) * float) :=
  batch ← collate batch;
  let ort_inputs := bind_inputs (get_inputs session) batch ort_inputs in
  predictions ← run session ort_inputs;
  lm_logits ← lm_logits_of predictions;
  lm_loss ← lm_loss_of lm_logits batch;
  mret (ort_inputs, lm_loss).

(** One turn of the loop of lines 124-148; [clock k] is the [k]-th reading
    of [timeit.default_timer].  The loss is a scalar already, so that
    [lm_loss.mean().item()] is the loss itself. *)
Definition eval_step (args : Args) (session : InferenceSession) (clock : nat -> float)
    (st : eval_state) (batch : list (list Z)) : result eval_state :=
  let timed := warmup_steps args <=? nb_eval_steps st in
  '(ort_inputs, lm_loss) ← forward session (ort_inputs st) batch;
  mret {| eval_loss := fadd (eval_loss st) lm_loss;
          nb_eval_steps := nb_eval_steps st + 1;
          total_time :=
            if timed
            then fadd (total_time st) (fsub (clock (S (ticks st))) (clock (ticks st)))
            else total_time st;
          ort_inputs := ort_inputs;
          ticks := if timed then S (S (ticks st)) else ticks st |}.

(** The loop of lines 124-151, with its [break]. *)
Fixpoint eval_loop (args : Args) (session : InferenceSession) (clock : nat -> float)
    (eval_dataloader : list (list (list Z))) (st : eval_state) : result eval_state :=
  match eval_dataloader with
  | [] => OK st
  | batch :: rest =>
      st' ← eval_step args session clock st batch;
      if (0 <? iter args) && (warmup_steps args + iter args <? nb_eval_steps st')
      then OK st'
      else eval_loop args session clock rest st'
  end.

Definition initial_state : eval_state :=
  {| eval_loss := fzero; nb_eval_steps := 0; total_time := fzero;
     ort_inputs := ∅; ticks := 0 |}.

(** Lines 153-159. *)
Definition performance_report (args : Args) (eval_batch_size : Z) (st : eval_state)
  : io unit :=
  if warmup_steps args <=? nb_eval_steps st then
    perf ← lift (div_int_float ((nb_eval_steps st - warmup_steps args) * eval_batch_size)
                               (total_time st));
    (if eval_batch_size =? 1 then
       latency ← lift (div_float_int (total_time st)
                                     (nb_eval_steps st - warmup_steps args));
       emit (PrintLatency (fmul latency (float_of_int 1000)))
     else mret ());;
    emit (PrintThroughput perf)
  else emit LogNoPerformance.

(** Lines 161-175. *)
Definition accuracy_report (args : Args) (eval_batch_size : Z) (st : eval_state)
  : io float :=
  eval_loss ← lift (div_float_int (eval_loss st) (nb_eval_steps st));
  let perplexity := fexp (to_float32 eval_loss) in
  emit (LogPerplexity perplexity);;
  (if benchmark args && String.eqb (mode args) "accuracy" then
     emit (PrintBatchSize eval_batch_size);;
     emit (PrintAccuracy (fsub (float_of_int 100) perplexity))
   else mret ());;
  mret (fsub (float_of_int 100) perplexity).

Definition eval_batch_size (args : Args) : Z :=
  per_gpu_eval_batch_size args * Z.max 1 (n_gpu args).

(** [evaluate] from line 100 on, given the dataset. *)
Definition evaluate_dataset (args : Args) (session : InferenceSession)
    (clock : nat -> float) (eval_dataset : list (list Z)) : io float :=
  eval_dataloader ← lift (DataLoader eval_dataset (eval_batch_size args));
  st ← lift (eval_loop args session clock eval_dataloader initial_state);
  performance_report args (eval_batch_size args) st;;
  accuracy_report args (eval_batch_size args) st.

End Evaluate.

(** [evaluate]: the dataset is built or loaded first. *)
Definition evaluate `{Codec} `{Arith} (args : Args) (session : InferenceSession)
    (tokenizer : Tokenizer) (clock : nat -> float) (w : world) : io float * world :=
  match load_and_cache_examples args tokenizer w with
  | OK (eval_dataset, w') => (evaluate_dataset args session clock eval_dataset, w')
  | Raise e => (IO [] (Raise e), w)
  end.

(** ** Concrete collaborators, for running the model *)

(** A tokenizer over characters: one token per character, its code as id. *)
Definition char_tokenizer : Tokenizer :=
  {| tokenize := fun text => map (fun c => String c EmptyString) (list_ascii_of_string text);
     convert_tokens_to_ids := map (fun t => match t with
                                            | String c _ => Z.of_nat (nat_of_ascii c)
                                            | EmptyString => 0
                                            end);
     build_inputs_with_special_tokens := fun ids => ids |}.

(** File contents that are either text or a pickled list of blocks. *)
Definition plain_codec : Codec :=
  {| bytes := string + list (list Z);
     utf8_decode := fun data => match data with
                                | inl text => OK text
                                | inr _ => Raise UnicodeDecodeError
                                end;
     pickle_dumps := inr;
     pickle_loads := fun data => match data with
                                 | inr examples => OK examples
                                 | inl _ => Raise UnpicklingError
                                 end |}.

(** Floats read as real numbers. *)
Definition real_arith : Arith :=
  {| float := R;
     float_of_int := IZR;
     fadd := Rplus;
     fsub := Rminus;
     fmul := Rmult;
     fdiv := Rdiv;
     fneg := Ropp;
     fis_zero := fun x => if Req_dec_T x 0%R then true else false;
     fexp := exp;
     flog := ln;
     to_float32 := fun x => x |}.

(** A run on a seven-character corpus with blocks of three ids. *)
Definition demo_args : Args :=
  {| model_name_or_path := "gpt2";
     eval_data_file := "wiki.txt";
     block_size := 3;
     per_gpu_eval_batch_size := 1;
     n_gpu := 0;
     overwrite_cache := false;
     benchmark := true;
     mode := "accuracy";
     warmup_steps := 0;
     iter := 0 |}.

Definition demo_world : @world plain_codec :=
  {| fs := {[ "wiki.txt" := @File plain_codec (inl "abcdefg") ]}; trace := [] |}.

Definition demo_examples : list (list Z) := [[97; 98; 99]; [100; 101; 102]].

(** The world after the first construction. *)
Definition demo_world_built : @world plain_codec :=
  {| fs := <[ "./dataset_cached/gpt2_cached_lm_3_wiki.txt"
              := @File plain_codec (inr demo_examples) ]>
           (<[ "./dataset_cached" := @Dir plain_codec ]> (fs demo_world));
     trace := [LogCreating ""; CallTokenize "abcdefg";
               LogSaving "./dataset_cached/gpt2_cached_lm_3_wiki.txt"] |}.

(** A session with one input, [input1], whose only output gives every token
    the same logits over a vocabulary of two ids. *)
Definition uniform_session : @InferenceSession real_arith :=
  @Build_InferenceSession real_arith ["input1"] ["output1"]
    (fun ort_inputs =>
       match ort_inputs !! "input1" with
       | Some input1 =>
           OK [{| shape := shape input1 ++ [2%nat];
                  data := flat_map (fun _ => [0%R; 0%R]) (data input1) |}]
       | None => Raise ValueError
       end).

(** A clock that advances by one second at every reading. *)
Definition second_clock : nat -> R := fun k => INR k.

(** Runs of [evaluate] over blocks of two ids, one block per batch unless
    said otherwise. *)
Definition run_args (per_gpu_eval_batch_size warmup_steps iter : Z) : Args :=
  {| model_name_or_path := "gpt2";
     eval_data_file := "wiki.txt";
     block_size := 2;
     per_gpu_eval_batch_size := per_gpu_eval_batch_size;
     n_gpu := 0;
     overwrite_cache := false;
     benchmark := true;
     mode := "accuracy";
     warmup_steps := warmup_steps;
     iter := iter |}.

Definition six_blocks : list (list Z) :=
  [[0; 1]; [1; 0]; [1; 1]; [0; 0]; [0; 1]; [1; 0]].

(** The loss [uniform_session] gives a block of two ids whose second id is
    [y]: one row of logits is scored. *)
Definition uniform_loss (y : Z) : R :=
  @fdiv real_arith (@fsum real_arith [@nll real_arith [0%R; 0%R] y]) (IZR 1).





(** ** The characters of [str(n)] *)


(** ** What the loop amounts to *)

Section LoopSpec.
Context `{Arith}.

(** The loop of lines 124-148 without its [break]. *)
Fixpoint eval_steps (args : Args) (session : InferenceSession) (clock : nat -> float)
    (batches : list (list (list Z))) (st : eval_state) : result eval_state :=
  match batches with
  | [] => OK st
  | batch :: rest =>
      st' ← eval_step args session clock st batch;
      eval_steps args session clock rest st'
  end.

(** How many more batches the loop takes when [nb_eval_steps] is [k] and
    [len] batches are left. *)
Definition steps_from (args : Args) (k : Z) (len : nat) : nat :=
  if 0 <? iter args
  then Nat.min len (Z.to_nat (Z.max 1 (warmup_steps args + iter args + 1 - k)))
  else len.

(** The number of steps of a run over [len] batches. *)
Definition steps_run (args : Args) (len : nat) : nat := steps_from args 0 len.

(** The losses of consecutive forward passes. *)
Fixpoint observed (session : InferenceSession) (ort_inputs : gmap string (tensor Z))
    (batches : list (list (list Z))) : result (list float) :=
  match batches with
  | [] => OK []
  | batch :: rest =>
      '(ort_inputs, lm_loss) ← forward session ort_inputs batch;
      ls ← observed session ort_inputs rest;
      mret (lm_loss :: ls)
  end.

(** The steps that are timed among the first [n]: those from step
    [warmup_steps] on. *)
Definition timed_steps (warmup_steps : Z) (n : Z) : nat :=
  Z.to_nat (n - Z.max 0 warmup_steps).

(** The time spent in the first [m] timed steps: each reads the clock twice. *)
Definition elapsed (clock : nat -> float) (m : nat) : float :=
  fsum (map (fun j => fsub (clock (S (2 * j))) (clock (2 * j)%nat)) (seq 0 m)).

(** The number of batches of a [DataLoader]: the dataset length over the
    batch size, rounded up. *)
Definition num_batches (dataset_len : nat) (batch_size : Z) : Z :=
  (Z.of_nat dataset_len + batch_size - 1) / batch_size.

(** The lines of the performance branch, when it goes through. *)
Definition performance_lines (args : Args) (bs : Z) (st : eval_state) : list output :=
  (if bs =? 1
   then [PrintLatency
           (fmul (fdiv (total_time st)
                       (float_of_int (nb_eval_steps st - warmup_steps args)))
                 (float_of_int 1000))]
   else [])
  ++ [PrintThroughput
        (fdiv (float_of_int ((nb_eval_steps st - warmup_steps args) * bs))
              (total_time st))].

(** The lines of the accuracy report. *)
Definition accuracy_lines (args : Args) (bs : Z) (perplexity : float) : list output :=
  LogPerplexity perplexity
  :: (if benchmark args && String.eqb (mode args) "accuracy"
      then [PrintBatchSize bs; PrintAccuracy (fsub (float_of_int 100) perplexity)]
      else []).

End LoopSpec.

(** ** The loss as the score of next-token prediction *)

Section ShiftedLoss.
Context `{Arith}.

(** In every block, the logits at position [i] paired with the token at
    position [i + 1]. *)
Definition shifted_pairs (logits : list (list (list float))) (blocks : list (list Z))
  : list (list float * Z) :=
  concat (zip_with (fun rows block => zip rows (tail block)) logits blocks).

(** The mean over the pairs whose label is not the ignore index [-1] of the
    cross-entropy of the logits against the label. *)
Definition shifted_cross_entropy (v : nat) (logits : list (list (list float)))
    (blocks : list (list Z)) : result float :=
  ls ← row_losses v (scored (-1) (shifted_pairs logits blocks));
  mret (fdiv (fsum ls) (float_of_int (Py.len ls))).

End ShiftedLoss.

(** ** The rest of [TextDataset] and of [main] *)

(** [TextDataset.__len__] (gpt2.py, lines 86-87). *)
Definition TextDataset_len (examples : list (list Z)) : Z := Py.len examples.

(** [l[item]] on a list: a negative index counts from the end, an index out
    of range is an [IndexError]. *)
Definition list_getitem {A} (l : list A) (item : Z) : result A :=
  let i := if item <? 0 then item + Py.len l else item in
  if i <? 0 then Raise IndexError
  else match l !! Z.to_nat i with
       | Some x => OK x
       | None => Raise IndexError
       end.

(** [TextDataset.__getitem__] (gpt2.py, lines 89-90): the block as a tensor
    of one dimension. *)
Definition TextDataset_getitem (examples : list (list Z)) (item : Z) : result (tensor Z) :=
  block ← list_getitem examples item;
  mret {| shape := [length block]; data := block |}.

(** The block size [main] settles on (gpt2.py, lines 233-235), given the
    tokenizer's [max_len_single_sentence]. *)
Definition main_block_size (block_size max_len_single_sentence : Z) : Z :=
  let block_size :=
    if block_size <=? 0 then max_len_single_sentence else block_size in
  Z.min block_size max_len_single_sentence.

Definition set_block_size (args : Args) (block_size : Z) : Args :=
  {| model_name_or_path := model_name_or_path args;
     eval_data_file := eval_data_file args;
     block_size := block_size;
     per_gpu_eval_batch_size := per_gpu_eval_batch_size args;
     n_gpu := n_gpu args;
     overwrite_cache := overwrite_cache args;
     benchmark := benchmark args;
     mode := mode args;
     warmup_steps := warmup_steps args;
     iter := iter args |}.

(** [main] from the block size to the benchmark run (gpt2.py, lines
    233-251), with the tokenizer and the onnx model loaded: the dataset is
    built or loaded once by [main] itself, and again inside [evaluate]. *)
Definition main_benchmark `{Codec} `{Arith} (args : Args) (max_len_single_sentence : Z)
    (tokenizer : Tokenizer) (model : InferenceSession) (clock : nat -> float)
    (w : world) : io unit * world :=
  let args := set_block_size args
                (main_block_size (block_size args) max_len_single_sentence) in
  match load_and_cache_examples args tokenizer w with
  | Raise e => (IO [] (Raise e), w)
  | OK (ds, w1) =>
      if benchmark args then
        let '(run, w2) := evaluate args model tokenizer clock w1 in
        (run ≫= (fun _ => mret ()), w2)
      else (mret (), w1)
  end.

(** ** More worlds to run the constructor in *)

(** Two text files of one name in two directories. *)
Definition two_dirs_world : @world plain_codec :=
  {| fs := {[ "a/wiki.txt" := @File plain_codec (inl "abcdefg");
              "b/wiki.txt" := @File plain_codec (inl "tuvwxyz") ]};
     trace := [] |}.

Definition two_dirs_built : @world plain_codec :=
  {| fs := <[ "./dataset_cached/gpt2_cached_lm_3_wiki.txt"
              := @File plain_codec (inr demo_examples) ]>
           (<[ "./dataset_cached" := @Dir plain_codec ]> (fs two_dirs_world));
     trace := [LogCreating "a"; CallTokenize "abcdefg";
               LogSaving "./dataset_cached/gpt2_cached_lm_3_wiki.txt"] |}.

(** A cache file that holds text instead of a pickle. *)
Definition corrupt_world : @world plain_codec :=
  {| fs := {[ "wiki.txt" := @File plain_codec (inl "abcdefg");
              "./dataset_cached" := @Dir plain_codec;
              "./dataset_cached/gpt2_cached_lm_3_wiki.txt"
                := @File plain_codec (inl "not a pickle") ]};
     trace := [] |}.

Definition demo_args_overwrite : Args :=
  {| model_name_or_path := "gpt2";
     eval_data_file := "wiki.txt";
     block_size := 3;
     per_gpu_eval_batch_size := 1;
     n_gpu := 0;
     overwrite_cache := true;
     benchmark := true;
     mode := "accuracy";
     warmup_steps := 0;
     iter := 0 |}.

(** ** More about runs *)

(** The lines of the performance report. *)
Definition is_performance_line `{Arith} (o : output) : bool :=
  match o with
  | PrintLatency _ | PrintThroughput _ | LogNoPerformance => true
  | _ => false
  end.

(** A session that declares one input and returns no output. *)
Definition silent_session : @InferenceSession real_arith :=
  @Build_InferenceSession real_arith ["input1"] [] (fun _ => OK []).
(** * Properties *)

Example range_blocks : Py.range 0 (10 - 4 + 1) 4 = OK [0; 4].
Proof. reflexivity. Qed.

Example range_short : Py.range 0 (3 - 4 + 1) 4 = OK [].
Proof. reflexivity. Qed.

Example str_512 : Py.str 512 = "512" /\ Py.str 0 = "0" /\ Py.str (-1) = "-1".
Proof. repeat split. Qed.

Example split_tail : Py.path_tail "data/wiki.test.raw" = "wiki.test.raw".
Proof. reflexivity. Qed.

Example cache_key_gpt2 :
  cached_features_file "gpt2" 1024 "data/wiki.test.raw"
  = "./dataset_cached/gpt2_cached_lm_1024_wiki.test.raw".
Proof. reflexivity. Qed.

(** ** Strings as character lists *)

Section StringLists.

Abbreviation chars := list_ascii_of_string.









End StringLists.

(** ** Injectivity of the cache key *)

Section CacheKey.

Abbreviation chars := list_ascii_of_string.

Lemma join_cache_dir (name : string) :
  Py.path_join cache_dir name
  = if Py.startswith_sep name then name else "./dataset_cached/" +:+ name.
Proof. unfold Py.path_join. by destruct (Py.startswith_sep name). Qed.




(** Across different file names the key is not injective: the separator
    text may itself occur in a model identifier or in a file name. *)
Example cache_key_collision :
  cached_features_file "a_cached_lm_1_b" 2 "f" = cached_features_file "a" 1 "b_cached_lm_2_f".
Proof. reflexivity. Qed.

End CacheKey.

(** ** The path of the cache file *)

Section KeyPaths.

Lemma string_app_cons (x : ascii) (a b : string) :
  String x a +:+ b = String x (a +:+ b).
Proof. reflexivity. Qed.

Lemma string_app_assoc (a b c : string) : (a +:+ b) +:+ c = a +:+ (b +:+ c).
Proof.
  induction a as [|x a IH]; [done|]. by rewrite !string_app_cons, IH.
Qed.

Lemma string_length_app (a b : string) :
  String.length (a +:+ b) = (String.length a + String.length b)%nat.
Proof.
  induction a as [|x a IH]; [done|]. rewrite string_app_cons. simpl. by rewrite IH.
Qed.

Lemma after_last_sep_app (s t : string) :
  Py.after_last_sep t = None ->
  Py.after_last_sep (s +:+ t) = option_map (fun r => r +:+ t) (Py.after_last_sep s).
Proof.
  intros Ht. induction s as [|c s IH].
  { change ("" +:+ t) with t. by rewrite Ht. }
  rewrite string_app_cons. simpl. rewrite IH. destruct (Py.after_last_sep s); simpl; [done|].
  by destruct (Ascii.eqb c "/").
Qed.

Lemma path_tail_app (s t : string) :
  Py.after_last_sep t = None -> Py.path_tail (s +:+ t) = Py.path_tail s +:+ t.
Proof.
  intros Ht. unfold Py.path_tail. rewrite after_last_sep_app by done.
  by destruct (Py.after_last_sep s).
Qed.

Lemma after_last_sep_tail (p t : string) :
  Py.after_last_sep p = Some t -> Py.after_last_sep t = None.
Proof.
  revert t. induction p as [|c p IH]; intros t; simpl; [done|].
  destruct (Py.after_last_sep p) as [t'|] eqn:Hp.
  - intros [= <-]. by apply IH.
  - destruct (Ascii.eqb c "/"); [|done]. by intros [= <-].
Qed.

(** A file name has no separator in it. *)
Lemma path_tail_no_sep (p : string) : Py.after_last_sep (Py.path_tail p) = None.
Proof.
  unfold Py.path_tail. destruct (Py.after_last_sep p) as [t|] eqn:Hp; [|done].
  by apply after_last_sep_tail in Hp.
Qed.

Lemma startswith_sep_app (m rest : string) (c : ascii) :
  c <> "/"%char ->
  Py.startswith_sep (m +:+ String c rest) = Py.startswith_sep m.
Proof.
  intros Hc. destruct m; simpl; [|done]. by apply Ascii.eqb_neq.
Qed.

(** The cache file is the name of the key after [./dataset_cached/], unless
    the model identifier is an absolute path: then it is that name itself. *)
Lemma cached_features_file_cases (m : string) (b : Z) (file_path : string) :
  let name := m +:+ "_cached_lm_" +:+ Py.str b +:+ "_" +:+ Py.path_tail file_path in
  cached_features_file m b file_path
  = if Py.startswith_sep m then name else "./dataset_cached/" +:+ name.
Proof.
  intros name. unfold cached_features_file. rewrite join_cache_dir. fold name.
  unfold name. change ("_cached_lm_" +:+ ?r)%string with (String "_" ("cached_lm_" +:+ r)).
  by rewrite startswith_sep_app.
Qed.

(** The cache file is never the source file: its name is longer. *)
Lemma cache_key_not_source (m : string) (b : Z) (file_path : string) :
  cached_features_file m b file_path <> file_path.
Proof.
  intros E. apply (f_equal Py.path_tail) in E.
  set (filename := Py.path_tail file_path) in *.
  assert (Hform : exists X, cached_features_file m b file_path
                            = X +:+ ("_" +:+ filename)).
  { rewrite cached_features_file_cases. fold filename.
    destruct (Py.startswith_sep m).
    - exists (m +:+ "_cached_lm_" +:+ Py.str b).
      by rewrite !string_app_assoc.
    - exists ("./dataset_cached/" +:+ m +:+ "_cached_lm_" +:+ Py.str b).
      by rewrite !string_app_assoc. }
  destruct Hform as [X HX]. rewrite HX in E.
  rewrite path_tail_app in E.
  - apply (f_equal String.length) in E. rewrite !string_length_app in E.
    simpl in E. lia.
  - change ("_" +:+ filename) with (String "_" filename). simpl.
    unfold filename. by rewrite path_tail_no_sep.
Qed.







End KeyPaths.

Example split_head :
  Py.path_head "data/wiki.test.raw" = "data" /\ Py.path_head "/x" = "/"
  /\ Py.path_head "a//b" = "a" /\ Py.path_head "x" = "".
Proof. repeat split. Qed.

(** ** The blocks of a fresh build *)

Section Blocks.

Lemma range_up_length (n : nat) (start step : Z) :
  length (Py.range_up n start step) = n.
Proof. revert start. induction n as [|n IH]; intros start; simpl; [done|by rewrite IH]. Qed.

Lemma range_up_lookup (n : nat) (start step : Z) (k : nat) :
  (k < n)%nat -> Py.range_up n start step !! k = Some (start + Z.of_nat k * step).
Proof.
  revert start k. induction n as [|n IH]; intros start k Hk; [lia|].
  destruct k as [|k]; simpl.
  - f_equal. lia.
  - rewrite IH by lia. f_equal. lia.
Qed.

(** The start indices of the loop of line 76, for a positive block size. *)
Lemma range_starts (N B : Z) :
  0 < B -> 0 <= N ->
  Py.range 0 (N - B + 1) B = OK (Py.range_up (Z.to_nat (N / B)) 0 B).
Proof.
  intros HB HN. unfold Py.range.
  destruct (Z.eqb_spec B 0) as [->|_]; [lia|].
  destruct (Z.ltb_spec 0 B) as [_|?]; [|lia].
  do 3 f_equal. replace (N - B + 1 - 0 + B - 1) with N by lia. done.
Qed.

(** Windows taken one after the other make up a prefix of the sequence. *)
Lemma windows_concat {A} (l : list A) (b n : nat) (start : Z) :
  0 <= start ->
  concat (map (fun i => Py.slice l i (i + Z.of_nat b)) (Py.range_up n start (Z.of_nat b)))
  = take (n * b) (drop (Z.to_nat start) l).
Proof.
  revert start. induction n as [|n IH]; intros start Hs; simpl; [done|].
  rewrite IH by lia. unfold Py.slice.
  replace (Z.to_nat (start + Z.of_nat b - start)) with b by lia.
  replace (Z.to_nat (start + Z.of_nat b)) with (Z.to_nat start + b)%nat by lia.
  by rewrite <- drop_drop, take_take_drop.
Qed.

Lemma slice_length {A} (l : list A) (i B : Z) :
  0 <= i -> 0 <= B -> i + B <= Py.len l -> Py.len (Py.slice l i (i + B)) = B.
Proof.
  intros Hi HB Hle. unfold Py.slice, Py.len in *.
  rewrite length_take, length_drop. lia.
Qed.

End Blocks.

(** C2. A fresh build over a corpus of [N] token ids with a block size
    [B > 0] (and the GPT-2 tokenizer, which adds no special tokens) yields
    exactly [N / B] blocks (floor division), each of length [B]; block [k] is the window
    [ids[k*B : (k+1)*B]], so the blocks are contiguous, disjoint and in
    corpus order; what is left over is the last [N mod B] ids, which are in
    no block. *)
Theorem blocks_floor_division (tokenizer : Tokenizer) (ids : list Z) (B : Z) :
  0 < B ->
  gpt2_special_tokens tokenizer ->
  exists examples rest,
    blocks tokenizer ids B = OK examples
    /\ Py.len examples = Py.len ids / B
    /\ (forall b, b ∈ examples -> Py.len b = B)
    /\ (forall (k : nat) b, examples !! k = Some b ->
          b = Py.slice ids (Z.of_nat k * B) (Z.of_nat k * B + B))
    /\ ids = concat examples ++ rest
    /\ Py.len rest = Py.len ids mod B.
Proof.
  intros HB Hgpt.
  set (N := Py.len ids). set (n := Z.to_nat (N / B)).
  assert (HN : 0 <= N) by (unfold N, Py.len; lia).
  assert (Hq : 0 <= N / B) by (apply Z.div_pos; lia).
  assert (Hn : Z.of_nat n = N / B) by (unfold n; lia).
  assert (Hfit : Z.of_nat n * B <= N).
  { rewrite Hn. pose proof (Z.mul_div_le N B HB). lia. }
  set (examples := map (fun i => Py.slice ids i (i + B)) (Py.range_up n 0 B)).
  assert (Hblocks : blocks tokenizer ids B = OK examples).
  { unfold blocks. fold N. rewrite range_starts by done. simpl.
    unfold mret, result_ret. f_equal. apply map_ext. intros i. apply Hgpt. }
  assert (Hlook : forall (k : nat) b, examples !! k = Some b ->
            (k < n)%nat /\ b = Py.slice ids (Z.of_nat k * B) (Z.of_nat k * B + B)).
  { intros k b Hk. unfold examples in Hk. rewrite list_lookup_fmap in Hk.
    destruct (Py.range_up n 0 B !! k) as [i|] eqn:Hi; [|done].
    assert (Hlt : (k < n)%nat).
    { apply lookup_lt_Some in Hi. by rewrite range_up_length in Hi. }
    rewrite range_up_lookup in Hi by done. simpl in Hk. split; [done|].
    injection Hi as <-. injection Hk as <-. f_equal; lia. }
  exists examples, (drop (n * Z.to_nat B) ids).
  split; [done|]. split.
  { unfold Py.len, examples. rewrite length_map, range_up_length. done. }
  split.
  { intros b Hb. apply list_elem_of_lookup in Hb as [k Hk].
    apply Hlook in Hk as [Hlt ->].
    assert (Z.of_nat k * B + B <= Z.of_nat n * B) by nia.
    apply slice_length; fold N; lia. }
  split.
  { intros k b Hk. by apply Hlook in Hk as [_ ->]. }
  assert (Hcat : concat examples = take (n * Z.to_nat B) ids).
  { unfold examples.
    pose proof (windows_concat ids (Z.to_nat B) n 0 ltac:(lia)) as W.
    rewrite Z2Nat.id in W by lia. exact W. }
  split.
  { rewrite Hcat. by rewrite take_drop. }
  unfold Py.len. rewrite length_drop. fold (Py.len ids). fold N.
  rewrite (Z.mod_eq N B) by lia. unfold N, Py.len in *. nia.
Qed.

Section BlocksRuns.

Lemma blocks_floor_division_witness :
  exists examples rest,
    blocks char_tokenizer [1; 2; 3; 4; 5; 6; 7] 3 = OK examples
    /\ Py.len examples = Py.len [1; 2; 3; 4; 5; 6; 7] / 3
    /\ (forall b, b ∈ examples -> Py.len b = 3)
    /\ (forall (k : nat) b, examples !! k = Some b ->
          b = Py.slice [1; 2; 3; 4; 5; 6; 7] (Z.of_nat k * 3) (Z.of_nat k * 3 + 3))
    /\ [1; 2; 3; 4; 5; 6; 7] = concat examples ++ rest
    /\ Py.len rest = Py.len [1; 2; 3; 4; 5; 6; 7] mod 3.
Proof.
  apply (blocks_floor_division char_tokenizer [1; 2; 3; 4; 5; 6; 7] 3).
  - lia.
  - intros ids. reflexivity.
Defined.

Example blocks_seven_by_three :
  blocks char_tokenizer [1; 2; 3; 4; 5; 6; 7] 3 = OK [[1; 2; 3]; [4; 5; 6]].
Proof. reflexivity. Qed.

Example blocks_zero_size : blocks char_tokenizer [1; 2; 3] 0 = Raise ValueError.
Proof. reflexivity. Qed.

Example blocks_negative_size : blocks char_tokenizer [1; 2; 3] (-2) = OK [].
Proof. reflexivity. Qed.

End BlocksRuns.

(** ** The cache: what a construction changes, and the round trip *)

Section Cache.
Context `{Codec}.

Lemma cache_key_not_cache_dir (m : string) (b : Z) (file_path : string) :
  cached_features_file m b file_path <> cache_dir.
Proof.
  unfold cached_features_file. rewrite join_cache_dir.
  destruct (Py.startswith_sep _) eqn:Hs.
  - intros E. rewrite E in Hs. discriminate Hs.
  - intros E. simpl in E. discriminate E.
Qed.


End Cache.

Section RoundTrip.
Context `{Codec}.

Lemma write_inv (f f' : gmap string node) (p : string) (data : bytes) :
  os.write f p data = OK f' -> f' = <[p := File data]> f.
Proof.
  unfold os.write.
  destruct (f !! p) as [[|]|]; try done;
    destruct (os.parent_exists f p); by inversion 1.
Qed.

Lemma isfile_insert (f : gmap string node) (p q : string) (n : node) :
  os.isfile f q = true -> (p = q -> exists d, n = File d) ->
  os.isfile (<[p := n]> f) q = true.
Proof.
  unfold os.isfile. intros Hq Hn.
  destruct (decide (p = q)) as [->|Hne].
  - rewrite lookup_insert_eq. by destruct (Hn eq_refl) as [d ->].
  - by rewrite lookup_insert_ne.
Qed.

Lemma exists_insert (f : gmap string node) (p q : string) (n : node) :
  os.exists_ f q = true -> os.exists_ (<[p := n]> f) q = true.
Proof.
  unfold os.exists_. intros Hq.
  destruct (decide (p = q)) as [->|Hne].
  - by rewrite lookup_insert_eq.
  - by rewrite lookup_insert_ne.
Qed.

(** What a successful construction leaves on disk. *)
Lemma TextDataset_leaves `{!PickleRoundTrip} (tokenizer : Tokenizer) (args : Args)
    (file_path : string) (B : Z) (w w' : world) (examples : list (list Z)) :
  TextDataset tokenizer args file_path B w = OK (examples, w') ->
  os.isfile (fs w') file_path = true
  /\ os.exists_ (fs w') cache_dir = true
  /\ exists data,
       fs w' !! cached_features_file (model_name_or_path args) B file_path = Some (File data)
       /\ pickle_loads data = OK examples.
Proof.
  intros Hrun. unfold TextDataset in Hrun.
  destruct (os.isfile (fs w) file_path) eqn:Hfile; simpl in Hrun; [|done].
  set (key := cached_features_file (model_name_or_path args) B file_path) in *.
  set (fs1 := if negb (os.exists_ (fs w) cache_dir)
              then os.makedirs (fs w) cache_dir else OK (fs w)) in Hrun.
  assert (Hfs1 : forall f, fs1 = OK f ->
            os.isfile f file_path = true /\ os.exists_ f cache_dir = true).
  { intros f. unfold fs1, os.makedirs.
    destruct (os.exists_ (fs w) cache_dir) eqn:Hex; simpl.
    - by intros [= <-].
    - unfold os.exists_ in Hex.
      destruct (fs w !! cache_dir) eqn:Hdir; [done|]. intros [= <-]. split.
      + apply isfile_insert; [done|]. intros <-.
        unfold os.isfile in Hfile. by rewrite Hdir in Hfile.
      + unfold os.exists_. by rewrite lookup_insert_eq. }
  destruct fs1 as [f1|e]; simpl in Hrun; [|done].
  destruct (Hfs1 f1 eq_refl) as [Hfile1 Hdir1].
  destruct (os.exists_ f1 key && negb (overwrite_cache args)).
  - destruct (os.read f1 key) as [d|] eqn:Hread; simpl in Hrun; [|done].
    destruct (pickle_loads d) as [ex|] eqn:Hload; simpl in Hrun; [|done].
    injection Hrun as <- <-. simpl. repeat split; try done.
    exists d. split; [|done]. unfold os.read in Hread.
    destruct (f1 !! key) as [[|d']|]; try done. by injection Hread as ->.
  - destruct (os.read f1 file_path) as [d|]; simpl in Hrun; [|done].
    destruct (utf8_decode d) as [text|]; simpl in Hrun; [|done].
    destruct (blocks _ _ _) as [ex|]; simpl in Hrun; [|done].
    destruct (os.write f1 key _) as [f2|] eqn:Hw; simpl in Hrun; [|done].
    injection Hrun as <- <-. simpl. apply write_inv in Hw as ->.
    split; [|split].
    + apply isfile_insert; [done|]. intros _. by eexists.
    + by apply exists_insert.
    + exists (pickle_dumps ex). rewrite lookup_insert_eq. split; [done|].
      apply pickle_round_trip.
Qed.

End RoundTrip.


(** C6. After a construction that succeeded, constructing again with the same
    model identifier, block size and file and without [overwrite_cache]
    loads the stored artifact: it returns the same blocks, element for
    element, leaves the files as they are and logs the load only, so the
    tokenizer (whichever it is) is not called again. *)
Theorem cache_round_trip `{Codec} `{!PickleRoundTrip} (tokenizer tokenizer' : Tokenizer)
    (args args' : Args) (file_path : string) (B : Z) (w w1 : world)
    (examples : list (list Z)) :
  model_name_or_path args' = model_name_or_path args ->
  overwrite_cache args' = false ->
  TextDataset tokenizer args file_path B w = OK (examples, w1) ->
  let key := cached_features_file (model_name_or_path args) B file_path in
  TextDataset tokenizer' args' file_path B w1
  = OK (examples, {| fs := fs w1; trace := trace w1 ++ [LogLoading key] |})
  /\ tokenizer_calls {| fs := fs w1; trace := trace w1 ++ [LogLoading key] |}
     = tokenizer_calls w1.
Proof.
  intros Hm Hov Hrun key.
  apply TextDataset_leaves in Hrun as (Hfile & Hdir & data & Hkey & Hload).
  split.
  - unfold TextDataset. rewrite Hfile, Hdir, Hm, Hov. simpl.
    fold key. unfold os.exists_, os.read. fold key in Hkey. rewrite Hkey. simpl.
    rewrite Hload. done.
  - unfold tokenizer_calls. simpl. rewrite List.filter_app, length_app. simpl. lia.
Qed.

Section CacheRuns.

Lemma plain_round_trip : @PickleRoundTrip plain_codec.
Proof. intros examples. reflexivity. Qed.

Example demo_first_build :
  TextDataset char_tokenizer demo_args "wiki.txt" 3 demo_world
  = OK (demo_examples, demo_world_built).
Proof. vm_compute. reflexivity. Qed.



(** Model identifiers that name one directory: the two cache paths differ as
    strings and have the same base name, in [./dataset_cached/.] and in
    [./dataset_cached]. *)
Example cache_key_same_directory :
  let key1 := cached_features_file "gpt2" 3 "wiki.txt" in
  let key2 := cached_features_file "./gpt2" 3 "wiki.txt" in
  key1 = "./dataset_cached/gpt2_cached_lm_3_wiki.txt"
  /\ key2 = "./dataset_cached/./gpt2_cached_lm_3_wiki.txt"
  /\ Py.path_tail key1 = Py.path_tail key2
  /\ Py.path_head key1 = "./dataset_cached"
  /\ Py.path_head key2 = "./dataset_cached/.".
Proof. repeat split. Qed.

Lemma cache_round_trip_witness :
  TextDataset char_tokenizer demo_args "wiki.txt" 3 demo_world_built
  = OK (demo_examples,
        {| fs := fs demo_world_built;
           trace := trace demo_world_built
                    ++ [LogLoading (cached_features_file "gpt2" 3 "wiki.txt")] |})
  /\ tokenizer_calls
       {| fs := fs demo_world_built;
          trace := trace demo_world_built
                   ++ [LogLoading (cached_features_file "gpt2" 3 "wiki.txt")] |}
     = tokenizer_calls demo_world_built.
Proof.
  apply (@cache_round_trip plain_codec plain_round_trip char_tokenizer char_tokenizer
           demo_args demo_args "wiki.txt" 3 demo_world demo_world_built demo_examples).
  - reflexivity.
  - reflexivity.
  - vm_compute. reflexivity.
Defined.

End CacheRuns.

(** A fresh build, with the cache directory in place: the blocks of the
    tokenized text are returned and stored under the cache key. *)
Lemma TextDataset_fresh_build `{Codec} (tokenizer : Tokenizer) (args : Args)
    (file_path : string) (B : Z) (w : world) (data : bytes) (text : string)
    (examples : list (list Z)) :
  let key := cached_features_file (model_name_or_path args) B file_path in
  fs w !! file_path = Some (File data) ->
  utf8_decode data = OK text ->
  fs w !! cache_dir = Some Dir ->
  fs w !! key = None \/ overwrite_cache args = true ->
  fs w !! key <> Some Dir ->
  os.parent_exists (fs w) key = true ->
  blocks tokenizer (convert_tokens_to_ids tokenizer (tokenize tokenizer text)) B
  = OK examples ->
  TextDataset tokenizer args file_path B w
  = OK (examples,
        {| fs := <[key := File (pickle_dumps examples)]> (fs w);
           trace := trace w ++ [LogCreating (Py.path_head file_path);
                                CallTokenize text; LogSaving key] |}).
Proof.
  intros key Hfile Hdecode Hdir Hfresh Hnotdir Hparent Hblocks.
  unfold TextDataset, os.isfile, os.exists_, os.read. rewrite Hfile, Hdir. simpl.
  fold key.
  assert (Hbranch : match fs w !! key with Some _ => true | None => false end
                    && negb (overwrite_cache args) = false).
  { destruct Hfresh as [->| ->]; [done|]. by destruct (fs w !! key). }
  rewrite Hbranch, Hfile. simpl. rewrite Hdecode. simpl. rewrite Hblocks. simpl.
  unfold os.write. rewrite Hparent.
  by destruct (fs w !! key) as [[|]|].
Qed.

(** ** The evaluation loop *)

Section Loop.
Context `{Arith}.
Variables (args : Args) (session : InferenceSession) (clock : nat -> float).

Lemma eval_step_nb (st st' : eval_state) (batch : list (list Z)) :
  eval_step args session clock st batch = OK st' ->
  nb_eval_steps st' = nb_eval_steps st + 1.
Proof.
  unfold eval_step. destruct (forward _ _ _) as [[ort loss]|]; simpl; [|done].
  by intros [= <-].
Qed.

(** The loop with its [break] runs the first [steps_from] batches. *)
Lemma eval_loop_prefix (batches : list (list (list Z))) (st : eval_state) :
  eval_loop args session clock batches st
  = eval_steps args session clock
      (take (steps_from args (nb_eval_steps st) (length batches)) batches) st.
Proof.
  revert st. induction batches as [|batch rest IH]; intros st.
  - unfold steps_from. by destruct (0 <? iter args).
  - simpl eval_loop.
    assert (Hcases :
      (0 <? iter args) && (warmup_steps args + iter args <? nb_eval_steps st + 1) = true
      /\ steps_from args (nb_eval_steps st) (length (batch :: rest)) = 1%nat
      \/ (0 <? iter args) && (warmup_steps args + iter args <? nb_eval_steps st + 1) = false
      /\ steps_from args (nb_eval_steps st) (length (batch :: rest))
         = S (steps_from args (nb_eval_steps st + 1) (length rest))).
    { unfold steps_from. simpl length.
      destruct (Z.ltb_spec 0 (iter args)); cbn [andb]; [|by right].
      destruct (Z.ltb_spec (warmup_steps args + iter args) (nb_eval_steps st + 1)).
      - left. split; [done|]. lia.
      - right. split; [done|]. lia. }
    destruct Hcases as [[Hb ->]|[Hb ->]]; simpl.
    + destruct (eval_step args session clock st batch) as [st'|] eqn:Hstep; simpl; [|done].
      rewrite (eval_step_nb _ _ _ Hstep), Hb. done.
    + destruct (eval_step args session clock st batch) as [st'|] eqn:Hstep; simpl; [|done].
      rewrite (eval_step_nb _ _ _ Hstep), Hb. rewrite IH.
      by rewrite (eval_step_nb _ _ _ Hstep).
Qed.

Lemma elapsed_S (m : nat) :
  elapsed clock (S m)
  = fadd (elapsed clock m) (fsub (clock (S (2 * m))) (clock (2 * m)%nat)).
Proof.
  unfold elapsed, fsum. rewrite seq_S, map_app, fold_left_app. done.
Qed.

Lemma timed_steps_next (w k : Z) :
  0 <= k ->
  timed_steps w (k + 1) = if w <=? k then S (timed_steps w k) else timed_steps w k.
Proof.
  intros Hk. unfold timed_steps. destruct (Z.leb_spec w k); lia.
Qed.

(** The state after [eval_steps], from a state that stands at step [k]. *)
Lemma eval_steps_state (batches : list (list (list Z))) (st : eval_state)
    (ls : list float) :
  0 <= nb_eval_steps st ->
  ticks st = (2 * timed_steps (warmup_steps args) (nb_eval_steps st))%nat ->
  total_time st = elapsed clock (timed_steps (warmup_steps args) (nb_eval_steps st)) ->
  observed session (ort_inputs st) batches = OK ls ->
  exists st',
    eval_steps args session clock batches st = OK st'
    /\ nb_eval_steps st' = nb_eval_steps st + Py.len batches
    /\ eval_loss st' = fold_left fadd ls (eval_loss st)
    /\ total_time st' = elapsed clock (timed_steps (warmup_steps args) (nb_eval_steps st'))
    /\ length ls = length batches.
Proof.
  revert st ls. induction batches as [|batch rest IH]; intros st ls Hk Hticks Htime Hobs.
  - injection Hobs as <-. exists st. unfold Py.len. simpl.
    repeat split; try done. lia.
  - simpl in Hobs.
    destruct (forward session (ort_inputs st) batch) as [[ort loss]|] eqn:Hfw;
      simpl in Hobs; [|done].
    destruct (observed session ort rest) as [ls'|] eqn:Hrest; simpl in Hobs; [|done].
    injection Hobs as <-.
    simpl eval_steps. unfold eval_step. rewrite Hfw. simpl.
    match goal with |- context [eval_steps _ _ _ rest ?s] => set (st1 := s) end.
    destruct (IH st1 ls') as (st' & Hrun & Hnb & Hloss & Htime' & Hlen).
    + simpl. lia.
    + simpl. rewrite timed_steps_next by done.
      rewrite Hticks. destruct (warmup_steps args <=? nb_eval_steps st); lia.
    + simpl. rewrite timed_steps_next by done.
      destruct (warmup_steps args <=? nb_eval_steps st); [|done].
      rewrite elapsed_S, Htime, Hticks. done.
    + done.
    + exists st'. split; [done|]. simpl in Hnb, Hloss.
      unfold Py.len in *. simpl length. repeat split; try done; lia.
Qed.

(** The state the loop ends in, when the forward passes it makes succeed. *)
Lemma eval_loop_state (batches : list (list (list Z))) (ls : list float) :
  let n := steps_run args (length batches) in
  observed session ∅ (take n batches) = OK ls ->
  exists st,
    eval_loop args session clock batches initial_state = OK st
    /\ nb_eval_steps st = Z.of_nat n
    /\ eval_loss st = fsum ls
    /\ total_time st = elapsed clock (timed_steps (warmup_steps args) (Z.of_nat n))
    /\ length ls = n.
Proof.
  intros n Hobs. rewrite eval_loop_prefix. simpl nb_eval_steps. fold (steps_run args (length batches)).
  fold n.
  assert (Hzero : timed_steps (warmup_steps args) 0 = 0%nat)
    by (unfold timed_steps; lia).
  destruct (eval_steps_state (take n batches) initial_state ls) as
    (st & Hrun & Hnb & Hloss & Htime & Hlen).
  { done. }
  { simpl. by rewrite Hzero. }
  { simpl. by rewrite Hzero. }
  { done. }
  assert (Hn : length (take n batches) = n).
  { rewrite length_take. unfold n, steps_run, steps_from.
    destruct (0 <? iter args); lia. }
  exists st. simpl in Hnb. unfold Py.len in Hnb. rewrite Hn in Hnb.
  assert (Hnb' : nb_eval_steps st = Z.of_nat n) by lia.
  split; [done|]. split; [done|]. split; [exact Hloss|]. split.
  - by rewrite Htime, Hnb'.
  - by rewrite Hlen.
Qed.

End Loop.

(** ** The reports after the loop *)

Section Reports.
Context `{Arith}.
Variables (args : Args) (bs : Z) (st : eval_state).

Lemma lift_ok_bind {A B} (a : A) (k : A -> io B) : lift (OK a) ≫= k = k a.
Proof. unfold mbind, io_bind, lift. simpl. by destruct (k a). Qed.

Lemma lift_raise_bind {A B} (e : exn) (k : A -> io B) :
  lift (Raise e) ≫= k = IO [] (Raise e).
Proof. done. Qed.

Lemma performance_report_timed :
  warmup_steps args < nb_eval_steps st ->
  fis_zero (total_time st) = false ->
  performance_report args bs st = IO (performance_lines args bs st) (OK ()).
Proof.
  intros Hw Hz. unfold performance_report, performance_lines.
  destruct (Z.leb_spec (warmup_steps args) (nb_eval_steps st)); [|lia].
  unfold div_int_float. rewrite Hz, lift_ok_bind.
  unfold div_float_int.
  destruct (Z.eqb_spec (nb_eval_steps st - warmup_steps args) 0); [lia|].
  by destruct (bs =? 1).
Qed.

Lemma performance_report_below :
  nb_eval_steps st < warmup_steps args ->
  performance_report args bs st = IO [LogNoPerformance] (OK ()).
Proof.
  intros Hw. unfold performance_report.
  by destruct (Z.leb_spec (warmup_steps args) (nb_eval_steps st)); [lia|].
Qed.

(** With no elapsed time the performance branch divides by zero. *)
Lemma performance_report_zero_time :
  warmup_steps args <= nb_eval_steps st ->
  fis_zero (total_time st) = true ->
  performance_report args bs st = IO [] (Raise ZeroDivisionError).
Proof.
  intros Hw Hz. unfold performance_report.
  destruct (Z.leb_spec (warmup_steps args) (nb_eval_steps st)); [|lia].
  unfold div_int_float. by rewrite Hz.
Qed.

Lemma accuracy_report_steps :
  nb_eval_steps st <> 0 ->
  let perplexity :=
    fexp (to_float32 (fdiv (eval_loss st) (float_of_int (nb_eval_steps st)))) in
  accuracy_report args bs st
  = IO (accuracy_lines args bs perplexity) (OK (fsub (float_of_int 100) perplexity)).
Proof.
  intros Hn. unfold accuracy_report, accuracy_lines, div_float_int.
  destruct (Z.eqb_spec (nb_eval_steps st) 0); [done|].
  rewrite lift_ok_bind.
  by destruct (benchmark args && String.eqb (mode args) "accuracy").
Qed.

Lemma accuracy_report_no_steps :
  nb_eval_steps st = 0 ->
  accuracy_report args bs st = IO [] (Raise ZeroDivisionError).
Proof. intros Hn. unfold accuracy_report, div_float_int. by rewrite Hn. Qed.

End Reports.

Section EvaluateDataset.
Context `{Arith}.

Lemma evaluate_dataset_reports (args : Args) (session : InferenceSession)
    (clock : nat -> float) (eval_dataset : list (list Z))
    (batches : list (list (list Z))) (st : eval_state) :
  DataLoader eval_dataset (eval_batch_size args) = OK batches ->
  eval_loop args session clock batches initial_state = OK st ->
  evaluate_dataset args session clock eval_dataset
  = (performance_report args (eval_batch_size args) st;;
     accuracy_report args (eval_batch_size args) st).
Proof.
  intros Hload Hloop. unfold evaluate_dataset.
  by rewrite Hload, lift_ok_bind, Hloop, lift_ok_bind.
Qed.

End EvaluateDataset.

(** ** The results of a run *)

(** Membership in a list of lines that is given element by element. *)
Ltac lines :=
  rewrite ?elem_of_app, ?elem_of_cons, ?elem_of_nil; naive_solver.

Section Results.
Context `{Arith}.
Variables (args : Args) (session : InferenceSession) (clock : nat -> float).

(** The performance report prints its lines, or stops on a division before
    it has printed anything. *)
Lemma performance_report_cases (bs : Z) (st : eval_state) :
  performance_report args bs st = IO [] (Raise ZeroDivisionError)
  \/ exists perf_lines,
       performance_report args bs st = IO perf_lines (OK ())
       /\ forall p, LogPerplexity p ∉ perf_lines.
Proof.
  unfold performance_report, div_int_float, div_float_int.
  destruct (warmup_steps args <=? nb_eval_steps st);
    [|right; eexists; split; [reflexivity|simpl; intros p; lines]].
  destruct (fis_zero (total_time st)); [by left|]. rewrite lift_ok_bind.
  destruct (bs =? 1); [|right; eexists; split; [reflexivity|simpl; intros p; lines]].
  destruct (nb_eval_steps st - warmup_steps args =? 0); [by left|].
  right. eexists. split; [reflexivity|simpl; intros p; lines].
Qed.

(** A run that is in the performance branch with no elapsed time stops on
    the division. *)
Lemma evaluate_dataset_zero_time (eval_dataset : list (list Z))
    (batches : list (list (list Z))) (ls : list float) :
  DataLoader eval_dataset (eval_batch_size args) = OK batches ->
  let n := Z.of_nat (steps_run args (length batches)) in
  observed session ∅ (take (steps_run args (length batches)) batches) = OK ls ->
  warmup_steps args <= n ->
  fis_zero (elapsed clock (timed_steps (warmup_steps args) n)) = true ->
  evaluate_dataset args session clock eval_dataset = IO [] (Raise ZeroDivisionError).
Proof.
  intros Hload n Hobs Hn Hz.
  destruct (eval_loop_state args session clock batches ls Hobs)
    as (st & Hloop & Hnb & _ & Htime & _).
  fold n in Hnb, Htime.
  rewrite (evaluate_dataset_reports _ _ _ _ _ _ Hload Hloop).
  rewrite performance_report_zero_time; [done|lia|by rewrite Htime].
Qed.

(** A run whose step count equals [warmup_steps] has timed nothing. *)
Lemma evaluate_dataset_at_warmup (eval_dataset : list (list Z))
    (batches : list (list (list Z))) (ls : list float) :
  DataLoader eval_dataset (eval_batch_size args) = OK batches ->
  observed session ∅ (take (steps_run args (length batches)) batches) = OK ls ->
  Z.of_nat (steps_run args (length batches)) = warmup_steps args ->
  fis_zero fzero = true ->
  evaluate_dataset args session clock eval_dataset = IO [] (Raise ZeroDivisionError).
Proof.
  intros Hload Hobs Hn Hz.
  apply (evaluate_dataset_zero_time eval_dataset batches ls Hload Hobs); [lia|].
  rewrite Hn. unfold timed_steps.
  replace (Z.to_nat _) with 0%nat by lia. exact Hz.
Qed.

(** What a run prints and returns when the performance branch goes through
    or is skipped. *)
Lemma evaluate_dataset_result (eval_dataset : list (list Z))
    (batches : list (list (list Z))) (ls : list float) :
  DataLoader eval_dataset (eval_batch_size args) = OK batches ->
  let n := Z.of_nat (steps_run args (length batches)) in
  observed session ∅ (take (steps_run args (length batches)) batches) = OK ls ->
  n <> 0 ->
  n < warmup_steps args
  \/ (warmup_steps args < n
      /\ fis_zero (elapsed clock (timed_steps (warmup_steps args) n)) = false) ->
  let perplexity := fexp (to_float32 (fdiv (fsum ls) (float_of_int n))) in
  exists st,
    nb_eval_steps st = n
    /\ total_time st = elapsed clock (timed_steps (warmup_steps args) n)
    /\ evaluate_dataset args session clock eval_dataset
       = IO ((if n <? warmup_steps args then [LogNoPerformance]
              else performance_lines args (eval_batch_size args) st)
             ++ accuracy_lines args (eval_batch_size args) perplexity)
            (OK (fsub (float_of_int 100) perplexity)).
Proof.
  intros Hload n Hobs Hn Hperf perplexity.
  destruct (eval_loop_state args session clock batches ls Hobs)
    as (st & Hloop & Hnb & Hloss & Htime & _).
  fold n in Hnb, Htime.
  exists st. split; [done|]. split; [done|].
  rewrite (evaluate_dataset_reports _ _ _ _ _ _ Hload Hloop).
  rewrite accuracy_report_steps by (by rewrite Hnb).
  rewrite Hnb, Hloss. fold perplexity.
  destruct Hperf as [Hlow|[Hhigh Hz]].
  - destruct (Z.ltb_spec n (warmup_steps args)); [|lia].
    rewrite performance_report_below by lia. done.
  - destruct (Z.ltb_spec n (warmup_steps args)); [lia|].
    rewrite performance_report_timed; [done|lia|by rewrite Htime].
Qed.

(** A run with at least one step ends in one of two ways. *)
Lemma evaluate_dataset_cases (eval_dataset : list (list Z))
    (batches : list (list (list Z))) (ls : list float) :
  DataLoader eval_dataset (eval_batch_size args) = OK batches ->
  let n := Z.of_nat (steps_run args (length batches)) in
  observed session ∅ (take (steps_run args (length batches)) batches) = OK ls ->
  n <> 0 ->
  let perplexity := fexp (to_float32 (fdiv (fsum ls) (float_of_int n))) in
  let run := evaluate_dataset args session clock eval_dataset in
  run = IO [] (Raise ZeroDivisionError)
  \/ exists perf_lines,
       run = IO (perf_lines ++ accuracy_lines args (eval_batch_size args) perplexity)
                (OK (fsub (float_of_int 100) perplexity))
       /\ forall p, LogPerplexity p ∉ perf_lines.
Proof.
  intros Hload n Hobs Hn perplexity run.
  destruct (eval_loop_state args session clock batches ls Hobs)
    as (st & Hloop & Hnb & Hloss & _).
  fold n in Hnb. unfold run.
  rewrite (evaluate_dataset_reports _ _ _ _ _ _ Hload Hloop).
  rewrite accuracy_report_steps by (by rewrite Hnb).
  rewrite Hnb, Hloss. fold perplexity.
  destruct (performance_report_cases (eval_batch_size args) st)
    as [->|(perf_lines & -> & Hnone)].
  - by left.
  - right. exists perf_lines. done.
Qed.

End Results.

(** Below [warmup_steps] the run logs the diagnostic and goes on to the
    accuracy. *)
Lemma evaluate_dataset_below_warmup `{Arith} (args : Args) (session : InferenceSession)
    (clock : nat -> float) (eval_dataset : list (list Z))
    (batches : list (list (list Z))) (ls : list float) :
  DataLoader eval_dataset (eval_batch_size args) = OK batches ->
  let n := Z.of_nat (steps_run args (length batches)) in
  observed session ∅ (take (steps_run args (length batches)) batches) = OK ls ->
  1 <= n < warmup_steps args ->
  let perplexity := fexp (to_float32 (fdiv (fsum ls) (float_of_int n))) in
  evaluate_dataset args session clock eval_dataset
  = IO (LogNoPerformance :: accuracy_lines args (eval_batch_size args) perplexity)
       (OK (fsub (float_of_int 100) perplexity)).
Proof.
  intros Hload n Hobs Hn perplexity.
  destruct (evaluate_dataset_result args session clock eval_dataset batches ls
              Hload Hobs ltac:(fold n; lia) ltac:(left; fold n; lia))
    as (st & _ & _ & Hrun).
  fold n perplexity in Hrun. rewrite Hrun.
  by destruct (Z.ltb_spec n (warmup_steps args)); [|lia].
Qed.

(** C1. For a run with at least one step, whose steps have the losses [ls]:
    the accuracy [evaluate] returns is [100 - exp(mean loss)] and the
    perplexity it logs is [exp(mean loss)], where the mean loss is the sum of
    the losses of all steps, warm-up steps included, over the step count.
    The run returns and logs them whenever the step count is below
    [warmup_steps], or above it with an elapsed time that is not zero; the
    only other way for it to end is the [ZeroDivisionError] of the
    performance report, before anything is printed. *)
Theorem evaluate_accuracy `{Arith} (args : Args) (session : InferenceSession)
    (clock : nat -> float) (eval_dataset : list (list Z))
    (batches : list (list (list Z))) (ls : list float) :
  DataLoader eval_dataset (eval_batch_size args) = OK batches ->
  let n := Z.of_nat (steps_run args (length batches)) in
  observed session ∅ (take (steps_run args (length batches)) batches) = OK ls ->
  1 <= n ->
  let mean_loss := fdiv (fsum ls) (float_of_int n) in
  let perplexity := fexp (to_float32 mean_loss) in
  let run := evaluate_dataset args session clock eval_dataset in
  Py.len ls = n
  /\ (forall accuracy, outcome run = OK accuracy ->
        accuracy = fsub (float_of_int 100) perplexity)
  /\ (forall p, LogPerplexity p ∈ printed run -> p = perplexity)
  /\ (run = IO [] (Raise ZeroDivisionError)
      \/ outcome run = OK (fsub (float_of_int 100) perplexity)
         /\ LogPerplexity perplexity ∈ printed run)
  /\ (n < warmup_steps args
      \/ (warmup_steps args < n
          /\ fis_zero (elapsed clock (timed_steps (warmup_steps args) n)) = false) ->
      outcome run = OK (fsub (float_of_int 100) perplexity)
      /\ LogPerplexity perplexity ∈ printed run).
Proof.
  intros Hload n Hobs Hn mean_loss perplexity run.
  assert (Hlen : Py.len ls = n).
  { destruct (eval_loop_state args session clock batches ls Hobs)
      as (_ & _ & _ & _ & _ & Hlen).
    unfold Py.len, n. by rewrite Hlen. }
  assert (Hlogged : forall perf_lines,
            LogPerplexity perplexity
            ∈ perf_lines ++ accuracy_lines args (eval_batch_size args) perplexity).
  { intros perf_lines. unfold accuracy_lines. lines. }
  destruct (evaluate_dataset_cases args session clock eval_dataset batches ls
              Hload Hobs ltac:(fold n; lia)) as [Hrun|(perf_lines & Hrun & Hnone)];
    fold n mean_loss perplexity run in Hrun.
  - rewrite Hrun. simpl.
    split; [done|]. split; [done|]. split.
    { intros p Hp. by apply elem_of_nil in Hp. }
    split; [by left|].
    intros Hperf.
    destruct (evaluate_dataset_result args session clock eval_dataset batches ls
                Hload Hobs ltac:(fold n; lia) Hperf) as (st & _ & _ & Hrun').
    fold n mean_loss perplexity run in Hrun'. rewrite Hrun in Hrun'. done.
  - rewrite Hrun. simpl.
    split; [done|]. split; [by intros accuracy [= <-]|]. split.
    { intros p Hp. apply elem_of_app in Hp as [Hp|Hp]; [by apply Hnone in Hp|].
      unfold accuracy_lines in Hp.
      destruct (benchmark args && _); revert Hp; lines. }
    split; [right|]; done.
Qed.

(** C8. For a run with at least one timed step: the throughput printed is
    [(step count - warmup_steps) * batch size / elapsed time], and a latency
    is printed exactly when the batch size is 1, the elapsed time over
    [step count - warmup_steps], in milliseconds.  Both are printed when the
    elapsed time is not zero; were it zero, the division would end the run
    before it prints. *)
Theorem performance_figures `{Arith} (args : Args) (session : InferenceSession)
    (clock : nat -> float) (eval_dataset : list (list Z))
    (batches : list (list (list Z))) (ls : list float) :
  DataLoader eval_dataset (eval_batch_size args) = OK batches ->
  let n := Z.of_nat (steps_run args (length batches)) in
  observed session ∅ (take (steps_run args (length batches)) batches) = OK ls ->
  (0 < timed_steps (warmup_steps args) n)%nat ->
  let elapsed_time := elapsed clock (timed_steps (warmup_steps args) n) in
  let run := evaluate_dataset args session clock eval_dataset in
  let throughput :=
    fdiv (float_of_int ((n - warmup_steps args) * eval_batch_size args)) elapsed_time in
  let latency := fdiv elapsed_time (float_of_int (n - warmup_steps args)) in
  (forall perf, PrintThroughput perf ∈ printed run -> perf = throughput)
  /\ (forall ms, PrintLatency ms ∈ printed run ->
        eval_batch_size args = 1 /\ ms = fmul latency (float_of_int 1000))
  /\ (fis_zero elapsed_time = false ->
      PrintThroughput throughput ∈ printed run
      /\ (eval_batch_size args = 1 ->
          PrintLatency (fmul latency (float_of_int 1000)) ∈ printed run))
  /\ (fis_zero elapsed_time = true -> run = IO [] (Raise ZeroDivisionError)).
Proof.
  intros Hload n Hobs Htimed elapsed_time run throughput latency.
  assert (Hn : warmup_steps args < n /\ 1 <= n) by (unfold timed_steps in Htimed; lia).
  destruct (fis_zero elapsed_time) eqn:Hz.
  - assert (Hrun : run = IO [] (Raise ZeroDivisionError)).
    { apply (evaluate_dataset_zero_time args session clock eval_dataset batches ls
               Hload Hobs); [fold n; lia|exact Hz]. }
    rewrite Hrun. simpl.
    split; [intros x Hx; by apply elem_of_nil in Hx|].
    split; [intros x Hx; by apply elem_of_nil in Hx|]. done.
  - destruct (evaluate_dataset_result args session clock eval_dataset batches ls
                Hload Hobs ltac:(fold n; lia) ltac:(right; split; [apply Hn|exact Hz]))
      as (st & Hnb & Htime & Hrun).
    fold n run in Hrun. fold n in Hnb, Htime. fold elapsed_time in Htime.
    rewrite Hrun. simpl.
    destruct (Z.ltb_spec n (warmup_steps args)); [lia|].
    unfold performance_lines, accuracy_lines. rewrite Hnb, Htime.
    fold throughput latency.
    split; [|split; [|split; [|done]]].
    + intros perf. destruct (Z.eqb_spec (eval_batch_size args) 1),
        (benchmark args && _); lines.
    + intros ms. destruct (Z.eqb_spec (eval_batch_size args) 1),
        (benchmark args && _); lines.
    + intros _. destruct (Z.eqb_spec (eval_batch_size args) 1),
        (benchmark args && _); split; lines.
Qed.

Section RealRuns.

#[local] Existing Instance real_arith.

Lemma real_zero_is_zero : fis_zero fzero = true.
Proof.
  unfold fis_zero, fzero, float_of_int. simpl.
  by destruct (Req_dec_T 0 0).
Qed.

Lemma real_elapsed_two : fis_zero (elapsed second_clock 2) = false.
Proof.
  unfold fis_zero, elapsed, fsum, second_clock. simpl.
  destruct (Req_dec_T _ 0) as [E|_]; [|done]. exfalso. lra.
Qed.

Example two_steps_observed :
  observed uniform_session ∅ [[[0; 1]]; [[1; 0]]] = OK [uniform_loss 1; uniform_loss 0].
Proof. reflexivity. Qed.

Lemma evaluate_accuracy_witness :
  let args := run_args 1 0 0 in
  let ls := [uniform_loss 1; uniform_loss 0] in
  let n := Z.of_nat (steps_run args 2) in
  let mean_loss := fdiv (fsum ls) (float_of_int n) in
  let perplexity := fexp (to_float32 mean_loss) in
  let run := evaluate_dataset args uniform_session second_clock [[0; 1]; [1; 0]] in
  Py.len ls = n
  /\ (forall accuracy, outcome run = OK accuracy ->
        accuracy = fsub (float_of_int 100) perplexity)
  /\ (forall p, LogPerplexity p ∈ printed run -> p = perplexity)
  /\ (run = IO [] (Raise ZeroDivisionError)
      \/ outcome run = OK (fsub (float_of_int 100) perplexity)
         /\ LogPerplexity perplexity ∈ printed run)
  /\ (n < warmup_steps args
      \/ (warmup_steps args < n
          /\ fis_zero (elapsed second_clock (timed_steps (warmup_steps args) n)) = false) ->
      outcome run = OK (fsub (float_of_int 100) perplexity)
      /\ LogPerplexity perplexity ∈ printed run).
Proof.
  apply (evaluate_accuracy (run_args 1 0 0) uniform_session second_clock
           [[0; 1]; [1; 0]] [[[0; 1]]; [[1; 0]]] [uniform_loss 1; uniform_loss 0]).
  - reflexivity.
  - reflexivity.
  - vm_compute. discriminate.
Defined.

(** The run of the two blocks, with nothing warmed up, returns. *)
Example two_steps_accuracy :
  outcome (evaluate_dataset (run_args 1 0 0) uniform_session second_clock [[0; 1]; [1; 0]])
  = OK (100 - exp ((0 + uniform_loss 1 + uniform_loss 0) / 2))%R.
Proof.
  destruct (evaluate_dataset_result (run_args 1 0 0) uniform_session second_clock
              [[0; 1]; [1; 0]] [[[0; 1]]; [[1; 0]]] [uniform_loss 1; uniform_loss 0])
    as (st & _ & _ & Hrun).
  - reflexivity.
  - reflexivity.
  - discriminate.
  - right. split; [reflexivity|]. exact real_elapsed_two.
  - rewrite Hrun. reflexivity.
Qed.

Lemma performance_figures_witness :
  let args := run_args 1 0 0 in
  let n := Z.of_nat (steps_run args 2) in
  let elapsed_time := elapsed second_clock (timed_steps (warmup_steps args) n) in
  let run := evaluate_dataset args uniform_session second_clock [[0; 1]; [1; 0]] in
  let throughput :=
    fdiv (float_of_int ((n - warmup_steps args) * eval_batch_size args)) elapsed_time in
  let latency := fdiv elapsed_time (float_of_int (n - warmup_steps args)) in
  (forall perf, PrintThroughput perf ∈ printed run -> perf = throughput)
  /\ (forall ms, PrintLatency ms ∈ printed run ->
        eval_batch_size args = 1 /\ ms = fmul latency (float_of_int 1000))
  /\ (fis_zero elapsed_time = false ->
      PrintThroughput throughput ∈ printed run
      /\ (eval_batch_size args = 1 ->
          PrintLatency (fmul latency (float_of_int 1000)) ∈ printed run))
  /\ (fis_zero elapsed_time = true -> run = IO [] (Raise ZeroDivisionError)).
Proof.
  apply (performance_figures (run_args 1 0 0) uniform_session second_clock
           [[0; 1]; [1; 0]] [[[0; 1]]; [[1; 0]]] [uniform_loss 1; uniform_loss 0]).
  - reflexivity.
  - reflexivity.
  - vm_compute. lia.
Defined.

End RealRuns.

(** C4 at its failing input. With [warmup_steps = 2] and a dataset of two
    blocks the run ends with a step count equal to [warmup_steps]; the test
    of line 153 lets it into the performance branch, where the elapsed time is
    [0.0]: the division raises, and neither the diagnostic nor an accuracy
    follows. *)
Theorem warmup_boundary_raises :
  @evaluate_dataset real_arith (run_args 1 2 0) uniform_session second_clock
    [[0; 1]; [1; 0]]
  = IO [] (Raise ZeroDivisionError).
Proof.
  apply (@evaluate_dataset_at_warmup real_arith (run_args 1 2 0) uniform_session
           second_clock [[0; 1]; [1; 0]] [[[0; 1]]; [[1; 0]]]
           [uniform_loss 1; uniform_loss 0]); try reflexivity.
  exact real_zero_is_zero.
Qed.

(** ** The batches of the data loader *)

Section Batches.
Context {A : Type}.

Lemma batched_nil (fuel n : nat) : batched fuel n (@nil A) = [].
Proof. by destruct fuel. Qed.

(** The batches put end to end are the dataset. *)
Lemma batched_concat (fuel n : nat) (l : list A) :
  (0 < n)%nat -> (length l <= fuel)%nat -> concat (batched fuel n l) = l.
Proof.
  intros Hn. revert l. induction fuel as [|fuel IH]; intros l Hlen.
  - destruct l; [done|simpl in Hlen; lia].
  - destruct l as [|x l]; [done|].
    change (batched (S fuel) n (x :: l))
      with (take n (x :: l) :: batched fuel n (drop n (x :: l))).
    simpl concat. rewrite IH.
    + apply take_drop.
    + rewrite length_drop. simpl in *. lia.
Qed.

(** Their number is the dataset length over the batch size, rounded up. *)
Lemma batched_length (fuel n : nat) (l : list A) :
  (0 < n)%nat -> (length l <= fuel)%nat ->
  length (batched fuel n l) = ((length l + n - 1) / n)%nat.
Proof.
  intros Hn. revert l. induction fuel as [|fuel IH]; intros l Hlen.
  - destruct l; [|simpl in Hlen; lia]. simpl.
    symmetry. apply Nat.div_small. lia.
  - destruct l as [|x l].
    + simpl. symmetry. apply Nat.div_small. lia.
    + change (batched (S fuel) n (x :: l))
        with (take n (x :: l) :: batched fuel n (drop n (x :: l))).
      simpl length at 1. rewrite IH by (rewrite length_drop; simpl in *; lia).
      rewrite length_drop. set (len := length (x :: l)).
      assert (Hpos : (1 <= len)%nat) by (unfold len; simpl; lia).
      destruct (le_lt_dec n len) as [Hge|Hlt].
      * replace (len + n - 1)%nat with ((len - n + n - 1) + 1 * n)%nat by lia.
        rewrite Nat.div_add by lia. lia.
      * replace (len - n + n - 1)%nat with (n - 1)%nat by lia.
        rewrite (Nat.div_small (n - 1) n) by lia.
        apply (Nat.div_unique _ _ _ (len - 1)%nat); lia.
Qed.

End Batches.

Lemma DataLoader_batches (dataset : list (list Z)) (batch_size : Z)
    (batches : list (list (list Z))) :
  DataLoader dataset batch_size = OK batches ->
  0 < batch_size
  /\ concat batches = dataset
  /\ Py.len batches = num_batches (length dataset) batch_size.
Proof.
  unfold DataLoader. destruct (Z.leb_spec batch_size 0); [done|].
  intros [= <-]. split; [done|]. split.
  - apply batched_concat; lia.
  - unfold Py.len, num_batches. rewrite batched_length by lia.
    rewrite Nat2Z.inj_div. f_equal; lia.
Qed.

Lemma steps_run_no_cap (args : Args) (len : nat) :
  iter args <= 0 -> steps_run args len = len.
Proof.
  intros Hi. unfold steps_run, steps_from.
  by destruct (Z.ltb_spec 0 (iter args)); [lia|].
Qed.

Lemma steps_run_capped (args : Args) (len : nat) :
  0 < iter args ->
  warmup_steps args + iter args < Z.of_nat len ->
  Z.of_nat (steps_run args len)
  = Z.max (Z.min 1 (Z.of_nat len)) (warmup_steps args + iter args + 1).
Proof.
  intros Hi Hlen. unfold steps_run, steps_from.
  destruct (Z.ltb_spec 0 (iter args)); [|lia]. lia.
Qed.

(** C3, amended. With an iteration cap [iter > 0] and more than
    [warmup_steps + iter] batches, the loop stops after
    [warmup_steps + iter + 1] steps when [warmup_steps] is not negative (in
    general after [max (min 1 batches) (warmup_steps + iter + 1)] steps): one
    step more than [warmup_steps + iter].  With [warmup_steps = 2] and
    [iter = 3] the step counter ends at 6. *)
Theorem early_exit_step_count `{Arith} (args : Args) (session : InferenceSession)
    (clock : nat -> float) (batches : list (list (list Z))) (ls : list float) :
  0 < iter args ->
  warmup_steps args + iter args < Py.len batches ->
  observed session ∅ (take (steps_run args (length batches)) batches) = OK ls ->
  exists st,
    eval_loop args session clock batches initial_state = OK st
    /\ nb_eval_steps st
       = Z.max (Z.min 1 (Py.len batches)) (warmup_steps args + iter args + 1)
    /\ (0 <= warmup_steps args ->
        nb_eval_steps st = warmup_steps args + iter args + 1)
    /\ (warmup_steps args = 2 -> iter args = 3 -> nb_eval_steps st = 6).
Proof.
  intros Hi Hlen Hobs.
  destruct (eval_loop_state args session clock batches ls Hobs)
    as (st & Hloop & Hnb & _).
  exists st. split; [done|].
  rewrite (steps_run_capped args (length batches) Hi Hlen) in Hnb.
  unfold Py.len in *. repeat split; try done; lia.
Qed.

(** C10, amended. With [iter = 0] the loop never breaks, whatever
    [warmup_steps] is: it runs over every batch, the batches put end to end
    are the dataset, and the step counter ends at the number of batches, the
    dataset length over the batch size rounded up, which is the dataset length
    when the batch size is 1. *)
Theorem no_cap_runs_every_batch `{Arith} (args : Args) (session : InferenceSession)
    (clock : nat -> float) (eval_dataset : list (list Z))
    (batches : list (list (list Z))) (ls : list float) :
  iter args = 0 ->
  DataLoader eval_dataset (eval_batch_size args) = OK batches ->
  observed session ∅ batches = OK ls ->
  (forall st, eval_loop args session clock batches st
              = eval_steps args session clock batches st)
  /\ concat batches = eval_dataset
  /\ exists st,
       eval_loop args session clock batches initial_state = OK st
       /\ nb_eval_steps st = num_batches (length eval_dataset) (eval_batch_size args)
       /\ (eval_batch_size args = 1 -> nb_eval_steps st = Py.len eval_dataset).
Proof.
  intros Hi Hload Hobs.
  apply DataLoader_batches in Hload as (Hbs & Hcat & Hnum).
  assert (Hsteps : forall k, steps_from args k (length batches) = length batches).
  { intros k. unfold steps_from. rewrite Hi. done. }
  split.
  { intros st. by rewrite eval_loop_prefix, Hsteps, firstn_all. }
  split; [done|].
  assert (Hall : take (steps_run args (length batches)) batches = batches).
  { unfold steps_run. by rewrite Hsteps, firstn_all. }
  rewrite <- Hall in Hobs.
  destruct (eval_loop_state args session clock batches ls Hobs)
    as (st & Hloop & Hnb & _).
  exists st. split; [done|].
  unfold steps_run in Hnb. rewrite Hsteps in Hnb. fold (Py.len batches) in Hnb.
  split; [by rewrite Hnb|].
  intros Hone. rewrite Hnb, Hnum, Hone. unfold num_batches, Py.len.
  rewrite Z.div_1_r. lia.
Qed.

Section StepCountRuns.

#[local] Existing Instance real_arith.

Lemma early_exit_step_count_witness :
  let args := run_args 1 2 3 in
  let batches := map (fun block => [block]) six_blocks in
  exists st,
    eval_loop args uniform_session second_clock batches initial_state = OK st
    /\ nb_eval_steps st
       = Z.max (Z.min 1 (Py.len batches)) (warmup_steps args + iter args + 1)
    /\ (0 <= warmup_steps args ->
        nb_eval_steps st = warmup_steps args + iter args + 1)
    /\ (warmup_steps args = 2 -> iter args = 3 -> nb_eval_steps st = 6).
Proof.
  intros args batches.
  assert (Hobs : exists ls,
            observed uniform_session ∅ (take (steps_run args (length batches)) batches)
            = OK ls) by (eexists; reflexivity).
  destruct Hobs as [ls Hobs].
  apply (early_exit_step_count args uniform_session second_clock batches ls).
  - reflexivity.
  - reflexivity.
  - exact Hobs.
Defined.

(** With [warmup_steps = 2], [iter = 3], one block per batch and six blocks,
    the loop makes six steps, not five. *)
Lemma early_exit_counterexample :
  let args := run_args 1 2 3 in
  exists batches st,
    DataLoader six_blocks (eval_batch_size args) = OK batches
    /\ warmup_steps args + iter args < Py.len six_blocks
    /\ eval_loop args uniform_session second_clock batches initial_state = OK st
    /\ nb_eval_steps st = 6
    /\ ~ nb_eval_steps st <= warmup_steps args + iter args.
Proof.
  intros args. exists (map (fun block => [block]) six_blocks).
  assert (Hobs : exists ls,
            observed uniform_session ∅
              (take (steps_run args 6) (map (fun block => [block]) six_blocks))
            = OK ls) by (eexists; reflexivity).
  destruct Hobs as [ls Hobs].
  destruct (eval_loop_state args uniform_session second_clock
              (map (fun block => [block]) six_blocks) ls Hobs)
    as (st & Hloop & Hnb & _).
  exists st. split; [reflexivity|]. split; [reflexivity|]. split; [exact Hloop|].
  assert (Hsix : nb_eval_steps st = 6) by (rewrite Hnb; reflexivity).
  split; [exact Hsix|]. rewrite Hsix. simpl. lia.
Qed.

Lemma no_cap_runs_every_batch_witness :
  let args := run_args 2 0 0 in
  let batches := [[[0; 1]; [1; 0]]; [[1; 1]; [0; 0]]; [[0; 1]; [1; 0]]] in
  (forall st, eval_loop args uniform_session second_clock batches st
              = eval_steps args uniform_session second_clock batches st)
  /\ concat batches = six_blocks
  /\ exists st,
       eval_loop args uniform_session second_clock batches initial_state = OK st
       /\ nb_eval_steps st = num_batches (length six_blocks) (eval_batch_size args)
       /\ (eval_batch_size args = 1 -> nb_eval_steps st = Py.len six_blocks).
Proof.
  intros args batches.
  assert (Hobs : exists ls, observed uniform_session ∅ batches = OK ls)
    by (eexists; reflexivity).
  destruct Hobs as [ls Hobs].
  apply (no_cap_runs_every_batch args uniform_session second_clock six_blocks batches ls).
  - reflexivity.
  - reflexivity.
  - exact Hobs.
Defined.

(** With two blocks per batch a dataset of two blocks is one step. *)
Lemma no_cap_counterexample :
  let args := run_args 2 0 0 in
  let eval_dataset := [[0; 1]; [1; 0]] in
  exists batches st,
    iter args = 0
    /\ DataLoader eval_dataset (eval_batch_size args) = OK batches
    /\ eval_loop args uniform_session second_clock batches initial_state = OK st
    /\ nb_eval_steps st = 1
    /\ nb_eval_steps st <> Py.len eval_dataset.
Proof.
  intros args eval_dataset. exists [[[0; 1]; [1; 0]]].
  assert (Hobs : exists ls,
            observed uniform_session ∅
              (take (steps_run args 1) [[[0; 1]; [1; 0]]]) = OK ls)
    by (eexists; reflexivity).
  destruct Hobs as [ls Hobs].
  destruct (eval_loop_state args uniform_session second_clock
              [[[0; 1]; [1; 0]]] ls Hobs) as (st & Hloop & Hnb & _).
  exists st. split; [reflexivity|]. split; [reflexivity|]. split; [exact Hloop|].
  assert (Hone : nb_eval_steps st = 1) by (rewrite Hnb; reflexivity).
  split; [exact Hone|]. rewrite Hone. discriminate.
Qed.

End StepCountRuns.

(** ** The forward pass: inputs and logits *)

Section Inputs.

Lemma bind_inputs_other (names : list string) (inputs : tensor Z)
    (ort : gmap string (tensor Z)) (name : string) :
  name ∉ names -> bind_inputs names inputs ort !! name = ort !! name.
Proof.
  revert inputs ort. induction names as [|n names IH]; intros inputs ort Hnot; [done|].
  simpl. rewrite IH by (intros ?; apply Hnot; by right).
  apply lookup_insert_ne. intros ->. apply Hnot. by left.
Qed.

(** The [i]-th declared input is bound to the batch expanded [i + 1] times. *)
Lemma bind_inputs_lookup (names : list string) (inputs : tensor Z)
    (ort : gmap string (tensor Z)) (i : nat) (name : string) :
  NoDup names -> names !! i = Some name ->
  bind_inputs names inputs ort !! name
  = Some {| shape := replicate (S i) 1%nat ++ shape inputs; data := data inputs |}.
Proof.
  revert inputs ort i. induction names as [|n names IH]; intros inputs ort i Hnd Hi; [done|].
  apply NoDup_cons in Hnd as [Hn Hnd]. destruct i as [|i]; simpl in Hi.
  - injection Hi as ->. simpl. rewrite bind_inputs_other by done.
    by rewrite lookup_insert_eq.
  - simpl bind_inputs. rewrite (IH _ _ i) by done. unfold expand_dims. simpl shape.
    simpl data. do 2 f_equal.
    rewrite cons_middle, app_assoc, <- replicate_cons_app. done.
Qed.

Lemma collate_blocks (batch : list (list Z)) (B : nat) :
  batch <> [] -> Forall (fun b => length b = B) batch ->
  collate batch = OK {| shape := [length batch; B]; data := concat batch |}.
Proof.
  intros Hne Hall. destruct batch as [|b batch]; [done|]. unfold collate.
  assert (Hb : length b = B) by (by inversion Hall).
  rewrite Hb.
  replace (forallb _ _) with true; [done|].
  symmetry. apply forallb_forall. intros b' Hin.
  rewrite Forall_forall in Hall. apply list_elem_of_In in Hin.
  rewrite (Hall b' Hin). apply Nat.eqb_refl.
Qed.

End Inputs.

(** C7, amended. At every step and for every declared input name of the
    session (the names being distinct), the tensor bound to the [i]-th name
    holds the blocks of the current batch and has the shape of the batch,
    (blocks in the batch, block size), under [i + 1] leading dimensions of
    size 1: (1, 1, block size) for the first name and a batch of one block,
    a tensor of rank 3, not 2.  The logits are the first output of the
    session run on these inputs. *)
Theorem forward_inputs_and_logits `{Arith} (session : InferenceSession)
    (ort_inputs : gmap string (tensor Z)) (batch : list (list Z)) (B : nat) :
  NoDup (get_inputs session) ->
  batch <> [] ->
  Forall (fun block => length block = B) batch ->
  let inputs := {| shape := [length batch; B]; data := concat batch |} in
  let bound := bind_inputs (get_inputs session) inputs ort_inputs in
  collate batch = OK inputs
  /\ (forall i name, get_inputs session !! i = Some name ->
        bound !! name
        = Some {| shape := replicate (S i) 1%nat ++ [length batch; B];
                  data := concat batch |})
  /\ (forall lm_logits others,
        run session bound = OK (lm_logits :: others) ->
        forward session ort_inputs batch
        = (lm_loss ← lm_loss_of lm_logits inputs; mret (bound, lm_loss))).
Proof.
  intros Hnd Hne Hall inputs bound.
  pose proof (collate_blocks batch B Hne Hall) as Hcollate.
  split; [done|]. split.
  - intros i name Hi. unfold bound.
    by rewrite (bind_inputs_lookup _ _ _ i name Hnd Hi).
  - intros lm_logits others Hrun. unfold forward. rewrite Hcollate.
    subst bound inputs. cbn [mbind result_bind]. rewrite Hrun. done.
Qed.

Section InputRuns.

#[local] Existing Instance real_arith.

Lemma forward_inputs_and_logits_witness :
  let batch := [[7; 8]] in
  let inputs := {| shape := [length batch; 2%nat]; data := concat batch |} in
  let bound := bind_inputs (get_inputs uniform_session) inputs ∅ in
  collate batch = OK inputs
  /\ (forall i name, get_inputs uniform_session !! i = Some name ->
        bound !! name
        = Some {| shape := replicate (S i) 1%nat ++ [length batch; 2%nat];
                  data := concat batch |})
  /\ (forall lm_logits others,
        run uniform_session bound = OK (lm_logits :: others) ->
        forward uniform_session ∅ batch
        = (lm_loss ← lm_loss_of lm_logits inputs; mret (bound, lm_loss))).
Proof.
  apply (forward_inputs_and_logits uniform_session ∅ [[7; 8]] 2).
  - simpl. apply NoDup_singleton.
  - discriminate.
  - repeat constructor.
Defined.

(** One block of two ids and one declared input: the tensor bound to the
    input has three dimensions. *)
Lemma input_rank_counterexample :
  exists inputs input1,
    collate [[7; 8]] = OK inputs
    /\ bind_inputs (get_inputs uniform_session) inputs ∅ !! "input1" = Some input1
    /\ shape input1 = [1; 1; 2]%nat
    /\ shape input1 <> [1; 2]%nat.
Proof.
  exists {| shape := [1; 2]%nat; data := [7; 8] |},
         {| shape := [1; 1; 2]%nat; data := [7; 8] |}.
  split; [reflexivity|]. split; [by vm_compute|]. split; [reflexivity|]. discriminate.
Qed.

End InputRuns.

(** ** The loss of a batch *)

Section Chunks.
Context {A : Type}.

Lemma split_last_snoc (l : list A) (x : A) : split_last (l ++ [x]) = Some (l, x).
Proof.
  induction l as [|a l IH]; [done|].
  simpl. rewrite IH. by destruct l.
Qed.

Lemma numel_app (s t : list nat) : numel (s ++ t) = (numel s * numel t)%nat.
Proof.
  induction s as [|d s IH]; simpl.
  - lia.
  - rewrite IH. lia.
Qed.

Lemma length_concat_uniform (n : nat) (gs : list (list A)) :
  Forall (fun g => length g = n) gs -> length (concat gs) = (length gs * n)%nat.
Proof.
  induction 1 as [|g gs Hg _ IH]; simpl; [done|].
  rewrite length_app, IH, Hg. done.
Qed.

(** Cutting a concatenation of chunks of one length gives the chunks back. *)
Lemma chunks_concat (n : nat) (gs : list (list A)) :
  Forall (fun g => length g = n) gs -> chunks (length gs) n (concat gs) = gs.
Proof.
  induction 1 as [|g gs Hg _ IH]; simpl; [done|].
  rewrite take_app_length', drop_app_length' by (symmetry; exact Hg).
  by rewrite IH.
Qed.

Lemma take_concat (n k : nat) (gs : list (list A)) :
  Forall (fun g => length g = n) gs ->
  take (k * n) (concat gs) = concat (take k gs).
Proof.
  intros Hall. revert k. induction Hall as [|g gs Hg _ IH]; intros k.
  - simpl. by rewrite !take_nil.
  - destruct k as [|k]; [done|]. simpl.
    rewrite take_app_add' by (symmetry; exact Hg). by rewrite IH.
Qed.

Lemma zip_concat {B} (xs : list (list A)) (ys : list (list B)) :
  Forall2 (fun x y => length x = length y) xs ys ->
  zip (concat xs) (concat ys) = concat (zip_with zip xs ys).
Proof.
  induction 1 as [|x y xs ys Hxy _ IH]; simpl; [done|].
  rewrite zip_with_app by done. by rewrite IH.
Qed.

Lemma concat_concat (gss : list (list (list A))) :
  concat (concat gss) = concat (map (@concat A) gss).
Proof.
  induction gss as [|gs gss IH]; simpl; [done|].
  by rewrite concat_app, IH.
Qed.

Lemma drop_1_tail (l : list A) : drop 1 l = tail l.
Proof. by destruct l. Qed.

Lemma Forall2_of_Forall {B} (P : A -> Prop) (Q : B -> Prop) (l : list A) (k : list B) :
  Forall P l -> Forall Q k -> length l = length k ->
  Forall2 (fun x y => P x /\ Q y) l k.
Proof.
  intros Hl. revert k. induction Hl as [|x l Hx _ IH]; intros k Hk Hlen.
  - destruct k; [constructor|done].
  - destruct k as [|y k]; [done|]. inversion Hk; subst.
    constructor; [done|]. apply IH; [done|]. simpl in Hlen. lia.
Qed.

Lemma zip_with_ext_Forall2 {B C} (f g : A -> B -> C) (l : list A) (k : list B) :
  Forall2 (fun x y => f x y = g x y) l k -> zip_with f l k = zip_with g l k.
Proof. induction 1 as [|x y l k Hxy _ IH]; simpl; [done|]. by rewrite Hxy, IH. Qed.

Lemma view_rows_ok (t : tensor A) (m v : nat) :
  (0 < v)%nat -> numel (shape t) = (m * v)%nat ->
  view_rows t v = OK {| shape := [m; v]; data := data t |}.
Proof.
  intros Hv Hn. unfold view_rows. destruct v as [|v]; [lia|].
  rewrite Hn, Nat.Div0.mod_mul, Nat.div_mul by lia. done.
Qed.

End Chunks.

Section ShiftedLossProof.
Context `{Arith}.

(** The pair at position [i] of a block: the logits of position [i] and the
    token of position [i + 1]. *)
Lemma shifted_pair_lookup (rows : list (list float)) (block : list Z) (i : nat) :
  zip rows (tail block) !! i
  = (row ← rows !! i; y ← block !! S i; Some (row, y)).
Proof.
  rewrite lookup_zip_with, lookup_tail.
  destruct (rows !! i); simpl; [|done]. by destruct (block !! S i).
Qed.

Lemma lm_loss_of_shifted (pre : list nat) (B V : nat)
    (logits : list (list (list float))) (blocks : list (list Z)) :
  (0 < V)%nat ->
  numel pre = length blocks ->
  length logits = length blocks ->
  Forall (fun rows => length rows = B /\ Forall (fun row => length row = V) rows) logits ->
  Forall (fun block => length block = B) blocks ->
  lm_loss_of {| shape := pre ++ [B; V]; data := concat (concat logits) |}
             {| shape := [length blocks; B]; data := concat blocks |}
  = shifted_cross_entropy V logits blocks.
Proof.
  intros HV Hpre Hlen Hlogits Hblocks.
  set (k := length blocks) in *.
  assert (Hgroups : Forall (fun g => length g = (B * V)%nat) (map (@concat float) logits)).
  { apply Forall_fmap. eapply Forall_impl; [exact Hlogits|].
    intros rows [HB HVs]. simpl. rewrite (length_concat_uniform V) by done. by rewrite HB. }
  assert (Hshift : drop_last_row {| shape := pre ++ [B; V]; data := concat (concat logits) |}
            = OK {| shape := pre ++ [(B - 1)%nat; V];
                    data := concat (concat (map (take (B - 1)) logits)) |}).
  { unfold drop_last_row. simpl shape. simpl data.
    replace (pre ++ [B; V]) with ((pre ++ [B]) ++ [V]) by (by rewrite <- app_assoc).
    rewrite !split_last_snoc. do 2 f_equal.
    rewrite Hpre, <- Hlen, <- (length_map (@concat float) logits).
    rewrite concat_concat, chunks_concat by done.
    rewrite concat_concat, <- !list_fmap_compose. f_equal.
    apply Forall_fmap_ext_1. eapply Forall_impl; [exact Hlogits|].
    intros rows [HB HVs]. simpl. by apply take_concat. }
  assert (Hlabels : drop_first_col {| shape := [k; B]; data := concat blocks |}
            = OK {| shape := [k; (B - 1)%nat]; data := concat (map tail blocks) |}).
  { unfold drop_first_col. simpl. do 3 f_equal.
    rewrite Nat.mul_1_r. unfold k. rewrite chunks_concat by done.
    apply map_ext. intros block. apply drop_1_tail. }
  set (rows := concat (map (take (B - 1)) logits)).
  assert (Hrows : Forall (fun row => length row = V) rows).
  { unfold rows. apply Forall_concat, Forall_fmap.
    eapply Forall_impl; [exact Hlogits|]. intros rs [_ HVs]. simpl.
    by apply Forall_take. }
  assert (Hcount : length rows = (k * (B - 1))%nat).
  { unfold rows. rewrite (length_concat_uniform (B - 1)), length_map, Hlen; [done|].
    apply Forall_fmap. eapply Forall_impl; [exact Hlogits|]. intros rs [HB _]. simpl.
    rewrite length_take. lia. }
  unfold lm_loss_of. rewrite Hshift, Hlabels. cbn [mbind result_bind].
  unfold size_last. simpl shape.
  replace (pre ++ [(B - 1)%nat; V]) with ((pre ++ [(B - 1)%nat]) ++ [V])
    by (by rewrite <- app_assoc).
  rewrite split_last_snoc. cbn [mbind result_bind].
  rewrite (view_rows_ok _ (k * (B - 1)) V HV).
  2:{ simpl shape. rewrite !numel_app, Hpre. simpl. lia. }
  cbn [mbind result_bind]. unfold CrossEntropyLoss, view_flat. simpl shape. simpl data.
  fold rows. rewrite <- Hcount, chunks_concat by done.
  replace (length rows =? k * ((B - 1) * 1))%nat with true
    by (symmetry; apply Nat.eqb_eq; lia).
  unfold shifted_cross_entropy, shifted_pairs.
  assert (Hpairs : Forall2 (fun rs block => length rs = B /\ length block = B) logits blocks).
  { apply Forall2_of_Forall; [|done|done].
    eapply Forall_impl; [exact Hlogits|]. by intros rs [HB _]. }
  do 3 f_equal. unfold rows. rewrite zip_concat.
  - f_equal. rewrite zip_with_fmap_l, zip_with_fmap_r.
    apply zip_with_ext_Forall2. eapply Forall2_impl; [exact Hpairs|].
    intros rs block [Hrs Hb]. simpl. apply zip_with_take_l'.
    destruct block; simpl in *; lia.
  - apply Forall2_fmap. eapply Forall2_impl; [exact Hpairs|].
    intros rs block [Hrs Hb]. simpl. rewrite length_take.
    destruct block; simpl in *; lia.
Qed.

Lemma row_losses_in_range (v : nat) (pairs : list (list float * Z)) :
  Forall (fun pair => 0 <= pair.2 < Z.of_nat v) pairs ->
  row_losses v pairs = OK (map (fun '(row, y) => nll row y) pairs).
Proof.
  induction 1 as [|[row y] pairs Hy _ IH]; simpl; [done|].
  simpl in Hy.
  destruct (Z.leb_spec 0 y); [|lia]. destruct (Z.ltb_spec y (Z.of_nat v)); [|lia].
  simpl. by rewrite IH.
Qed.

Lemma scored_elem_of (ignore_index : Z) (pairs : list (list float * Z))
    (pair : list float * Z) :
  pair ∈ scored ignore_index pairs <-> pair ∈ pairs /\ pair.2 <> ignore_index.
Proof.
  unfold scored. rewrite !list_elem_of_In, filter_In. destruct pair as [row y]. simpl.
  destruct (Z.eqb_spec y ignore_index); simpl; intuition congruence.
Qed.

Lemma shifted_pairs_labels (P : Z -> Prop) (logits : list (list (list float)))
    (blocks : list (list Z)) :
  Forall (Forall P) blocks ->
  Forall (fun pair => P pair.2) (shifted_pairs logits blocks).
Proof.
  intros Hblocks. unfold shifted_pairs. apply Forall_concat.
  revert logits. induction Hblocks as [|block blocks Hb _ IH]; intros [|rows logits];
    simpl; try constructor; [|apply IH].
  assert (Htail : Forall P (tail block)) by (destruct Hb; [constructor|done]).
  clear Hb. revert rows. induction Htail as [|y ys Hy _ IHt]; intros [|row rows];
    simpl; constructor; [done|apply IHt].
Qed.

End ShiftedLossProof.

(** C9. The loss of a batch, given logits with one row per position and
    token ids that are in the vocabulary or equal to the ignore index [-1],
    is the mean cross-entropy, over the vocabulary, of the logits at position
    [i] of a block against that block's own token at position [i + 1], for
    the positions [0 .. block size - 2], the pairs whose label is [-1] left
    out. *)
Theorem lm_loss_next_token `{Arith} (pre : list nat) (B V : nat)
    (logits : list (list (list float))) (blocks : list (list Z)) :
  blocks <> [] ->
  (0 < V)%nat ->
  numel pre = length blocks ->
  length logits = length blocks ->
  Forall (fun rows => length rows = B /\ Forall (fun row => length row = V) rows) logits ->
  Forall (fun block => length block = B) blocks ->
  Forall (Forall (fun y => y = -1 \/ 0 <= y < Z.of_nat V)) blocks ->
  let labels := {| shape := [length blocks; B]; data := concat blocks |} in
  let lm_logits := {| shape := pre ++ [B; V]; data := concat (concat logits) |} in
  let kept := scored (-1) (shifted_pairs logits blocks) in
  let ls := map (fun '(row, y) => nll row y) kept in
  collate blocks = OK labels
  /\ lm_loss_of lm_logits labels = OK (fdiv (fsum ls) (float_of_int (Py.len ls)))
  /\ (forall pair, pair ∈ kept <-> pair ∈ shifted_pairs logits blocks /\ pair.2 <> -1)
  /\ (forall (rows : list (list float)) (block : list Z) (i : nat),
        zip rows (tail block) !! i
        = (row ← rows !! i; y ← block !! S i; Some (row, y))).
Proof.
  intros Hne HV Hpre Hlen Hlogits Hblocks Hvocab labels lm_logits kept ls.
  split; [by apply collate_blocks|]. split; [|split].
  - unfold lm_logits, labels. rewrite lm_loss_of_shifted by done.
    unfold shifted_cross_entropy. fold kept.
    rewrite row_losses_in_range; [done|].
    apply Forall_forall. intros pair Hin.
    apply scored_elem_of in Hin as [Hin Hkeep].
    pose proof (shifted_pairs_labels _ logits blocks Hvocab) as Hall.
    rewrite Forall_forall in Hall. apply Hall in Hin.
    simpl in Hin. lia.
  - intros pair. apply scored_elem_of.
  - apply shifted_pair_lookup.
Qed.

Section LossRuns.

#[local] Existing Instance real_arith.

Lemma lm_loss_next_token_witness :
  let blocks := [[0; 1]] in
  let logits : list (list (list (@float real_arith))) :=
    [[[0%R; 0%R]; [0%R; 0%R]]] in
  let labels := {| shape := [length blocks; 2%nat]; data := concat blocks |} in
  let lm_logits := {| shape := [1; 1]%nat ++ [2; 2]%nat; data := concat (concat logits) |} in
  let kept := scored (-1) (shifted_pairs logits blocks) in
  let ls := map (fun '(row, y) => nll row y) kept in
  collate blocks = OK labels
  /\ lm_loss_of lm_logits labels = OK (fdiv (fsum ls) (float_of_int (Py.len ls)))
  /\ (forall pair, pair ∈ kept <-> pair ∈ shifted_pairs logits blocks /\ pair.2 <> -1)
  /\ (forall (rows : list (list float)) (block : list Z) (i : nat),
        zip rows (tail block) !! i
        = (row ← rows !! i; y ← block !! S i; Some (row, y))).
Proof.
  apply (@lm_loss_next_token real_arith [1; 1]%nat 2 2
           [[[0%R; 0%R]; [0%R; 0%R]]] [[0; 1]]).
  - discriminate.
  - lia.
  - reflexivity.
  - reflexivity.
  - repeat constructor.
  - repeat constructor.
  - repeat constructor; lia.
Defined.

(** A label equal to the ignore index is left out of the mean. *)
Example ignored_label :
  @scored real_arith (-1)
    (@shifted_pairs real_arith [[[0%R; 0%R]; [0%R; 0%R]; [0%R; 0%R]]] [[0; -1; 1]])
  = [([0%R; 0%R], 1)].
Proof. reflexivity. Qed.

End LossRuns.


(** * Further properties *)

(** ** Where the cache file is *)

(** X1. The cache file lies in [./dataset_cached] when the model identifier is
    a relative path, and outside of it, beside the model, when the identifier
    is an absolute path; in both cases it is not the source file. *)
Theorem cache_file_location (m : string) (b : Z) (file_path : string) :
  let name := m +:+ "_cached_lm_" +:+ Py.str b +:+ "_" +:+ Py.path_tail file_path in
  (Py.startswith_sep m = false ->
   cached_features_file m b file_path = "./dataset_cached/" +:+ name)
  /\ (Py.startswith_sep m = true -> cached_features_file m b file_path = name)
  /\ cached_features_file m b file_path <> file_path
  /\ cached_features_file m b file_path <> cache_dir.
Proof.
  intros name. pose proof (cached_features_file_cases m b file_path) as Hc.
  fold name in Hc. split; [|split; [|split]].
  - intros Hm. by rewrite Hc, Hm.
  - intros Hm. by rewrite Hc, Hm.
  - apply cache_key_not_source.
  - apply cache_key_not_cache_dir.
Qed.

Example cache_beside_absolute_model :
  cached_features_file "/models/gpt2" 512 "data/wiki.txt"
  = "/models/gpt2_cached_lm_512_wiki.txt".
Proof. reflexivity. Qed.

(** ** Constructing the dataset over an existing cache *)

Section Construction.
Context `{Codec}.

(** The load branch of the constructor. *)
Lemma TextDataset_load (tokenizer : Tokenizer) (args : Args) (file_path : string)
    (B : Z) (w : world) (data : bytes) (examples : list (list Z)) :
  let key := cached_features_file (model_name_or_path args) B file_path in
  os.isfile (fs w) file_path = true ->
  os.exists_ (fs w) cache_dir = true ->
  fs w !! key = Some (File data) ->
  overwrite_cache args = false ->
  TextDataset tokenizer args file_path B w
  = (examples ← pickle_loads data;
     mret (examples, {| fs := fs w; trace := trace w ++ [LogLoading key] |})).
Proof.
  intros key Hfile Hdir Hkey Hov.
  unfold TextDataset. rewrite Hfile, Hdir, Hov. simpl.
  fold key. unfold os.exists_, os.read. rewrite Hkey. done.
Qed.

(** The file system after the first lines of the constructor: the cache
    directory is there, and nothing else has changed. *)
Lemma makedirs_step (f f1 : gmap string node) :
  (if negb (os.exists_ f cache_dir) then os.makedirs f cache_dir else OK f) = OK f1 ->
  os.exists_ f1 cache_dir = true
  /\ forall p, p <> cache_dir \/ is_Some (f !! p) -> f1 !! p = f !! p.
Proof.
  unfold os.exists_, os.makedirs.
  destruct (f !! cache_dir) as [n|] eqn:Hdir; simpl; intros [= <-].
  - by rewrite Hdir.
  - rewrite lookup_insert_eq. split; [done|]. intros p [Hp|[n Hn]].
    + by rewrite lookup_insert_ne.
    + rewrite lookup_insert_ne; [done|]. intros <-. congruence.
Qed.

(** A construction changes no path that existed before, its own cache file
    apart. *)
Lemma TextDataset_keeps (tokenizer : Tokenizer) (args : Args) (file_path : string)
    (B : Z) (w w' : world) (examples : list (list Z)) (p : string) :
  TextDataset tokenizer args file_path B w = OK (examples, w') ->
  p <> cached_features_file (model_name_or_path args) B file_path ->
  p <> cache_dir \/ is_Some (fs w !! p) ->
  fs w' !! p = fs w !! p.
Proof.
  intros Hrun Hkey Hp. unfold TextDataset in Hrun.
  destruct (os.isfile (fs w) file_path); simpl in Hrun; [|done].
  destruct (if negb (os.exists_ (fs w) cache_dir) then _ else _) as [f1|] eqn:Hf1;
    simpl in Hrun; [|done].
  apply makedirs_step in Hf1 as [_ Hsame]. specialize (Hsame p Hp).
  destruct (os.exists_ f1 _ && negb (overwrite_cache args)).
  - destruct (os.read f1 _) as [d|]; simpl in Hrun; [|done].
    destruct (pickle_loads d); simpl in Hrun; [|done].
    by injection Hrun as _ <-.
  - destruct (os.read f1 file_path) as [d|]; simpl in Hrun; [|done].
    destruct (utf8_decode d) as [text|]; simpl in Hrun; [|done].
    destruct (blocks _ _ _) as [ex|]; simpl in Hrun; [|done].
    destruct (os.write f1 _ _) as [f2|] eqn:Hw; simpl in Hrun; [|done].
    injection Hrun as _ <-. simpl. apply write_inv in Hw as ->.
    by rewrite lookup_insert_ne.
Qed.

End Construction.

(** X2. A construction that succeeds leaves the source file as it was, changes
    no other path that existed (its own cache file apart), and leaves a cache
    file whose contents load to exactly the blocks it returned. *)
Theorem construction_leaves_consistent_cache `{Codec} `{!PickleRoundTrip}
    (tokenizer : Tokenizer) (args : Args) (file_path : string) (B : Z)
    (w w' : world) (examples : list (list Z)) :
  TextDataset tokenizer args file_path B w = OK (examples, w') ->
  let key := cached_features_file (model_name_or_path args) B file_path in
  fs w' !! file_path = fs w !! file_path
  /\ os.isfile (fs w') file_path = true
  /\ (forall p, p <> key -> is_Some (fs w !! p) -> fs w' !! p = fs w !! p)
  /\ os.exists_ (fs w') cache_dir = true
  /\ exists data, fs w' !! key = Some (File data) /\ pickle_loads data = OK examples.
Proof.
  intros Hrun key.
  pose proof (TextDataset_leaves _ _ _ _ _ _ _ Hrun) as (Hfile & Hdir & Hcache).
  assert (Hsrc : is_Some (fs w !! file_path)).
  { unfold os.isfile in Hfile.
    rewrite (TextDataset_keeps _ _ _ _ _ _ _ file_path Hrun) in Hfile.
    - destruct (fs w !! file_path); [by eexists|done].
    - apply not_eq_sym, cache_key_not_source.
    - unfold TextDataset in Hrun.
      destruct (os.isfile (fs w) file_path) eqn:Hf; [|done].
      unfold os.isfile in Hf. right. destruct (fs w !! file_path); [by eexists|done]. }
  split; [|split; [done|split; [|split; [done|done]]]].
  - eapply TextDataset_keeps; [exact Hrun| |by right].
    apply not_eq_sym, cache_key_not_source.
  - intros p Hp Hsome. eapply TextDataset_keeps; [exact Hrun|done|by right].
Qed.

(** X3. The cache is keyed by names, not by contents: once a construction has
    succeeded, replacing the contents of the text file changes nothing for a
    later construction without [overwrite_cache]; it returns the blocks of the
    old text and calls no tokenizer. *)
Theorem stale_cache_after_edit `{Codec} `{!PickleRoundTrip}
    (tokenizer tokenizer' : Tokenizer) (args args' : Args) (file_path : string)
    (B : Z) (w w1 : world) (examples : list (list Z)) (new_text : bytes) :
  model_name_or_path args' = model_name_or_path args ->
  overwrite_cache args' = false ->
  TextDataset tokenizer args file_path B w = OK (examples, w1) ->
  let key := cached_features_file (model_name_or_path args) B file_path in
  let edited := {| fs := <[file_path := File new_text]> (fs w1); trace := trace w1 |} in
  TextDataset tokenizer' args' file_path B edited
  = OK (examples, {| fs := fs edited; trace := trace w1 ++ [LogLoading key] |}).
Proof.
  intros Hm Hov Hrun key edited.
  apply TextDataset_leaves in Hrun as (Hfile & Hdir & data & Hkey & Hload).
  fold key in Hkey.
  rewrite (TextDataset_load tokenizer' args' file_path B edited data examples).
  - rewrite Hload, Hm. done.
  - unfold edited, os.isfile. simpl. by rewrite lookup_insert_eq.
  - unfold edited. simpl. by apply exists_insert.
  - rewrite Hm. unfold edited. simpl. fold key.
    rewrite lookup_insert_ne; [done|]. apply not_eq_sym, cache_key_not_source.
  - done.
Qed.

(** X4. The key takes the file name without its directory: after a
    construction for one file, a construction for another file of the same
    name in another directory (same model identifier and block size, no
    [overwrite_cache]) returns the blocks of the first file and never reads
    the second. *)
Theorem cache_shared_by_file_name `{Codec} `{!PickleRoundTrip}
    (tokenizer tokenizer' : Tokenizer) (args args' : Args) (file1 file2 : string)
    (B : Z) (w w1 : world) (examples : list (list Z)) :
  model_name_or_path args' = model_name_or_path args ->
  overwrite_cache args' = false ->
  Py.path_tail file2 = Py.path_tail file1 ->
  os.isfile (fs w) file2 = true ->
  TextDataset tokenizer args file1 B w = OK (examples, w1) ->
  let key := cached_features_file (model_name_or_path args) B file1 in
  TextDataset tokenizer' args' file2 B w1
  = OK (examples, {| fs := fs w1; trace := trace w1 ++ [LogLoading key] |}).
Proof.
  intros Hm Hov Htail Hfile2 Hrun key.
  assert (Hsame : cached_features_file (model_name_or_path args') B file2 = key).
  { unfold key, cached_features_file. by rewrite Hm, Htail. }
  assert (Hkeep : fs w1 !! file2 = fs w !! file2).
  { eapply TextDataset_keeps; [exact Hrun| |].
    - fold key. rewrite <- Hsame. apply not_eq_sym, cache_key_not_source.
    - right. unfold os.isfile in Hfile2. destruct (fs w !! file2); [by eexists|done]. }
  apply TextDataset_leaves in Hrun as (_ & Hdir & data & Hkey & Hload).
  fold key in Hkey.
  rewrite (TextDataset_load tokenizer' args' file2 B w1 data examples).
  - rewrite Hload, Hsame. done.
  - unfold os.isfile. by rewrite Hkeep.
  - done.
  - by rewrite Hsame.
  - done.
Qed.

(** X5. A cache file that does not unpickle stops the construction with the
    error of [pickle.load]: without [overwrite_cache] the constructor does not
    fall back on the text file. *)
Theorem corrupt_cache_raises `{Codec} (tokenizer : Tokenizer) (args : Args)
    (file_path : string) (B : Z) (w : world) (data : bytes) (e : exn) :
  os.isfile (fs w) file_path = true ->
  fs w !! cached_features_file (model_name_or_path args) B file_path = Some (File data) ->
  pickle_loads data = Raise e ->
  overwrite_cache args = false ->
  TextDataset tokenizer args file_path B w = Raise e.
Proof.
  intros Hfile Hkey Hload Hov. unfold TextDataset. rewrite Hfile. simpl.
  destruct (if negb (os.exists_ (fs w) cache_dir) then _ else _) as [f1|] eqn:Hf1.
  - apply makedirs_step in Hf1 as [_ Hsame].
    specialize (Hsame (cached_features_file (model_name_or_path args) B file_path)
                  ltac:(left; apply cache_key_not_cache_dir)).
    simpl. unfold os.exists_, os.read. rewrite Hsame, Hkey, Hov. simpl.
    by rewrite Hload.
  - exfalso. revert Hf1. unfold os.exists_, os.makedirs.
    by destruct (fs w !! cache_dir).
Qed.

(** X6. With [overwrite_cache] a cache file that is there, loadable or not, is
    not read: the text is tokenized again and the cache file replaced by the
    new blocks. *)
Theorem overwrite_cache_rebuilds `{Codec} (tokenizer : Tokenizer) (args : Args)
    (file_path : string) (B : Z) (w : world) (old source : bytes) (text : string)
    (examples : list (list Z)) :
  let key := cached_features_file (model_name_or_path args) B file_path in
  overwrite_cache args = true ->
  fs w !! key = Some (File old) ->
  fs w !! file_path = Some (File source) ->
  utf8_decode source = OK text ->
  fs w !! cache_dir = Some Dir ->
  os.parent_exists (fs w) key = true ->
  blocks tokenizer (convert_tokens_to_ids tokenizer (tokenize tokenizer text)) B
  = OK examples ->
  exists w',
    TextDataset tokenizer args file_path B w = OK (examples, w')
    /\ fs w' = <[key := File (pickle_dumps examples)]> (fs w)
    /\ tokenizer_calls w' = S (tokenizer_calls w).
Proof.
  intros key Hov Hold Hsrc Hdecode Hdir Hparent Hblocks.
  eexists. split; [|split].
  - apply (TextDataset_fresh_build tokenizer args file_path B w source text examples);
      try done.
    + by right.
    + fold key. by rewrite Hold.
  - done.
  - unfold tokenizer_calls. simpl. rewrite List.filter_app, length_app. simpl. lia.
Qed.

Section ConstructionRuns.

Lemma construction_leaves_consistent_cache_witness :
  let key := cached_features_file (model_name_or_path demo_args) 3 "wiki.txt" in
  fs demo_world_built !! "wiki.txt" = fs demo_world !! "wiki.txt"
  /\ os.isfile (fs demo_world_built) "wiki.txt" = true
  /\ (forall p, p <> key -> is_Some (fs demo_world !! p) ->
        fs demo_world_built !! p = fs demo_world !! p)
  /\ os.exists_ (fs demo_world_built) cache_dir = true
  /\ exists data, fs demo_world_built !! key = Some (File data)
                  /\ pickle_loads data = OK demo_examples.
Proof.
  apply (@construction_leaves_consistent_cache plain_codec plain_round_trip
           char_tokenizer demo_args "wiki.txt" 3 demo_world demo_world_built
           demo_examples).
  vm_compute. reflexivity.
Defined.

Lemma stale_cache_after_edit_witness :
  let key := cached_features_file (model_name_or_path demo_args) 3 "wiki.txt" in
  let edited : @world plain_codec :=
    {| fs := <["wiki.txt" := @File plain_codec (inl "zzzzzzzzz")]> (fs demo_world_built);
       trace := trace demo_world_built |} in
  TextDataset char_tokenizer demo_args "wiki.txt" 3 edited
  = OK (demo_examples,
        {| fs := fs edited; trace := trace demo_world_built ++ [LogLoading key] |}).
Proof.
  apply (@stale_cache_after_edit plain_codec plain_round_trip char_tokenizer
           char_tokenizer demo_args demo_args "wiki.txt" 3 demo_world
           demo_world_built demo_examples (inl "zzzzzzzzz")).
  - reflexivity.
  - reflexivity.
  - vm_compute. reflexivity.
Defined.

Lemma cache_shared_by_file_name_witness :
  let key := cached_features_file (model_name_or_path demo_args) 3 "a/wiki.txt" in
  TextDataset char_tokenizer demo_args "b/wiki.txt" 3 two_dirs_built
  = OK (demo_examples,
        {| fs := fs two_dirs_built;
           trace := trace two_dirs_built ++ [LogLoading key] |}).
Proof.
  apply (@cache_shared_by_file_name plain_codec plain_round_trip char_tokenizer
           char_tokenizer demo_args demo_args "a/wiki.txt" "b/wiki.txt" 3
           two_dirs_world two_dirs_built demo_examples).
  - reflexivity.
  - reflexivity.
  - reflexivity.
  - reflexivity.
  - vm_compute. reflexivity.
Defined.

Lemma corrupt_cache_raises_witness :
  TextDataset char_tokenizer demo_args "wiki.txt" 3 corrupt_world
  = Raise UnpicklingError.
Proof.
  apply (@corrupt_cache_raises plain_codec char_tokenizer demo_args "wiki.txt" 3
           corrupt_world (inl "not a pickle") UnpicklingError).
  - reflexivity.
  - reflexivity.
  - reflexivity.
  - reflexivity.
Defined.

Lemma overwrite_cache_rebuilds_witness :
  let key := cached_features_file (model_name_or_path demo_args_overwrite) 3 "wiki.txt" in
  exists w',
    TextDataset char_tokenizer demo_args_overwrite "wiki.txt" 3 corrupt_world
    = OK (demo_examples, w')
    /\ fs w' = <[key := File (pickle_dumps demo_examples)]> (fs corrupt_world)
    /\ tokenizer_calls w' = S (tokenizer_calls corrupt_world).
Proof.
  apply (@overwrite_cache_rebuilds plain_codec char_tokenizer demo_args_overwrite
           "wiki.txt" 3 corrupt_world (inl "not a pickle") (inl "abcdefg") "abcdefg"
           demo_examples).
  - reflexivity.
  - reflexivity.
  - reflexivity.
  - reflexivity.
  - reflexivity.
  - reflexivity.
  - reflexivity.
Defined.

End ConstructionRuns.

(** ** Block sizes, short corpora and items *)

Section BlockSizes.

(** The blocks for a positive block size, whatever the tokenizer adds. *)
Lemma blocks_windows (tokenizer : Tokenizer) (ids : list Z) (B : Z) :
  0 < B ->
  blocks tokenizer ids B
  = OK (map (fun i => build_inputs_with_special_tokens tokenizer
                        (Py.slice ids i (i + B)))
            (Py.range_up (Z.to_nat (Py.len ids / B)) 0 B)).
Proof.
  intros HB. unfold blocks.
  rewrite range_starts; [done|done|unfold Py.len; lia].
Qed.

Lemma blocks_lookup (tokenizer : Tokenizer) (ids : list Z) (B : Z)
    (examples : list (list Z)) (k : nat) :
  0 < B ->
  blocks tokenizer ids B = OK examples ->
  Z.of_nat k < Py.len ids / B ->
  examples !! k
  = Some (build_inputs_with_special_tokens tokenizer
            (Py.slice ids (Z.of_nat k * B) (Z.of_nat k * B + B))).
Proof.
  intros HB Hblocks Hk. rewrite blocks_windows in Hblocks by done.
  injection Hblocks as <-.
  rewrite list_lookup_fmap, range_up_lookup by lia. simpl.
  do 2 f_equal; lia.
Qed.

Lemma blocks_count (tokenizer : Tokenizer) (ids : list Z) (B : Z)
    (examples : list (list Z)) :
  0 < B -> blocks tokenizer ids B = OK examples -> Py.len examples = Py.len ids / B.
Proof.
  intros HB Hblocks. rewrite blocks_windows in Hblocks by done.
  injection Hblocks as <-. unfold Py.len.
  rewrite length_map, range_up_length.
  assert (0 <= Z.of_nat (length ids) / B) by (apply Z.div_pos; lia). lia.
Qed.

Lemma list_getitem_in_range {A} (l : list A) (i : Z) (x : A) :
  0 <= i -> l !! Z.to_nat i = Some x ->
  list_getitem l i = OK x /\ list_getitem l (i - Py.len l) = OK x.
Proof.
  intros Hi Hx. pose proof (lookup_lt_Some _ _ _ Hx) as Hlt.
  unfold list_getitem, Py.len. split.
  - destruct (Z.ltb_spec i 0); [lia|]. destruct (Z.ltb_spec i 0); [lia|].
    by rewrite Hx.
  - destruct (Z.ltb_spec (i - Z.of_nat (length l)) 0); [|lia].
    replace (i - Z.of_nat (length l) + Z.of_nat (length l)) with i by lia.
    destruct (Z.ltb_spec i 0); [lia|]. by rewrite Hx.
Qed.

Lemma list_getitem_out_of_range {A} (l : list A) (i : Z) :
  Py.len l <= i \/ i < - Py.len l -> list_getitem l i = Raise IndexError.
Proof.
  unfold list_getitem, Py.len. intros [Hi|Hi].
  - destruct (Z.ltb_spec i 0); [lia|]. destruct (Z.ltb_spec i 0); [lia|].
    rewrite lookup_ge_None_2; [done|lia].
  - destruct (Z.ltb_spec i 0); [|lia].
    by destruct (Z.ltb_spec (i + Z.of_nat (length l)) 0); [|lia].
Qed.

End BlockSizes.

(** X7. For a positive block size and any tokenizer, a corpus with fewer ids
    than one block gives an empty dataset, not an error, and a corpus of
    exactly one block gives that one block. *)
Theorem short_corpus_blocks (tokenizer : Tokenizer) (ids : list Z) (B : Z) :
  0 < B ->
  (Py.len ids < B -> blocks tokenizer ids B = OK [])
  /\ (Py.len ids = B ->
      blocks tokenizer ids B = OK [build_inputs_with_special_tokens tokenizer ids]).
Proof.
  intros HB. split; intros Hlen; rewrite blocks_windows by done.
  - rewrite Z.div_small by (unfold Py.len in *; lia). done.
  - rewrite Hlen, Z.div_same by lia. simpl. do 3 f_equal.
    unfold Py.slice. simpl.
    replace (Z.to_nat (0 + B - 0)) with (length ids) by (unfold Py.len in Hlen; lia).
    apply firstn_all.
Qed.

(** X8. A block size that is not positive: zero stops the builder with the
    [ValueError] of [range], a negative one gives an empty dataset. *)
Theorem nonpositive_block_size (tokenizer : Tokenizer) (ids : list Z) (B : Z) :
  B <= 0 ->
  blocks tokenizer ids B = if B =? 0 then Raise ValueError else OK [].
Proof.
  intros HB. unfold blocks, Py.range.
  destruct (Z.eqb_spec B 0) as [->|Hne]; [done|].
  destruct (Z.ltb_spec 0 B); [lia|].
  assert (Hneg : (0 - (Py.len ids - B + 1) - B - 1) / - B < 0).
  { apply Z.div_lt_upper_bound; unfold Py.len; lia. }
  replace (Z.to_nat _) with 0%nat by lia. done.
Qed.

(** X9. The block size [main] settles on, for a tokenizer whose
    [max_len_single_sentence] is positive: it is positive and at most that
    maximum, it is the requested size when that lies in between, and with it
    the builder never stops on its block size: it returns the corpus length
    over the block size blocks. *)
Theorem main_block_size_builds (tokenizer : Tokenizer) (ids : list Z)
    (requested max_len_single_sentence : Z) :
  0 < max_len_single_sentence ->
  let B := main_block_size requested max_len_single_sentence in
  0 < B <= max_len_single_sentence
  /\ (0 < requested <= max_len_single_sentence -> B = requested)
  /\ (requested <= 0 \/ max_len_single_sentence < requested ->
      B = max_len_single_sentence)
  /\ exists examples,
       blocks tokenizer ids B = OK examples /\ Py.len examples = Py.len ids / B.
Proof.
  intros Hmax B.
  assert (HB : 0 < B <= max_len_single_sentence).
  { unfold B, main_block_size. destruct (Z.leb_spec requested 0); lia. }
  split; [done|]. split; [|split].
  - intros Hr. unfold B, main_block_size. destruct (Z.leb_spec requested 0); lia.
  - intros Hr. unfold B, main_block_size. destruct (Z.leb_spec requested 0); lia.
  - rewrite blocks_windows by lia. eexists. split; [done|].
    unfold Py.len. rewrite length_map, range_up_length.
    assert (0 <= Z.of_nat (length ids) / B) by (apply Z.div_pos; lia). lia.
Qed.

(** X10. The items of a dataset built with the GPT-2 tokenizer and a positive
    block size: there are corpus length over block size of them; item [i] is
    the window [ids[i*B : (i+1)*B]] as a tensor of one dimension of [B] ids;
    a negative index counts from the end; the index just past the last item
    is an [IndexError]. *)
Theorem dataset_items (tokenizer : Tokenizer) (ids : list Z) (B : Z)
    (examples : list (list Z)) (i : Z) :
  0 < B ->
  gpt2_special_tokens tokenizer ->
  blocks tokenizer ids B = OK examples ->
  0 <= i < Py.len ids / B ->
  let item := {| shape := [Z.to_nat B]; data := Py.slice ids (i * B) (i * B + B) |} in
  TextDataset_len examples = Py.len ids / B
  /\ TextDataset_getitem examples i = OK item
  /\ TextDataset_getitem examples (i - TextDataset_len examples) = OK item
  /\ TextDataset_getitem examples (TextDataset_len examples) = Raise IndexError.
Proof.
  intros HB Hgpt Hblocks Hi item.
  pose proof (blocks_count _ _ _ _ HB Hblocks) as Hcount.
  pose proof (blocks_lookup tokenizer ids B examples (Z.to_nat i) HB Hblocks
                ltac:(lia)) as Hlook.
  rewrite Hgpt, Z2Nat.id in Hlook by lia.
  assert (Hlen : length (Py.slice ids (i * B) (i * B + B)) = Z.to_nat B).
  { assert (Hfit : i * B + B <= Py.len ids).
    { pose proof (Z.mul_div_le (Py.len ids) B HB). nia. }
    pose proof (slice_length ids (i * B) B ltac:(nia) ltac:(lia) Hfit) as Hs.
    unfold Py.len in Hs. lia. }
  destruct (list_getitem_in_range examples i _ ltac:(lia) Hlook) as [Hpos Hneg].
  unfold TextDataset_len, TextDataset_getitem.
  split; [done|]. split; [|split].
  - rewrite Hpos. simpl. unfold mret, result_ret, item. by rewrite Hlen.
  - rewrite Hneg. simpl. unfold mret, result_ret, item. by rewrite Hlen.
  - rewrite list_getitem_out_of_range; [done|]. left. lia.
Qed.

Section BlockRuns.

Lemma short_corpus_blocks_witness :
  (Py.len [1; 2] < 3 -> blocks char_tokenizer [1; 2] 3 = OK [])
  /\ (Py.len [1; 2] = 3 ->
      blocks char_tokenizer [1; 2] 3
      = OK [build_inputs_with_special_tokens char_tokenizer [1; 2]]).
Proof. apply (short_corpus_blocks char_tokenizer [1; 2] 3). lia. Defined.

Lemma nonpositive_block_size_witness :
  blocks char_tokenizer [1; 2; 3] (-2) = if -2 =? 0 then Raise ValueError else OK [].
Proof. apply (nonpositive_block_size char_tokenizer [1; 2; 3] (-2)). lia. Defined.

Lemma main_block_size_builds_witness :
  let B := main_block_size (-1) 3 in
  0 < B <= 3
  /\ (0 < -1 <= 3 -> B = -1)
  /\ (-1 <= 0 \/ 3 < -1 -> B = 3)
  /\ exists examples,
       blocks char_tokenizer [1; 2; 3; 4; 5; 6; 7] B = OK examples
       /\ Py.len examples = Py.len [1; 2; 3; 4; 5; 6; 7] / B.
Proof.
  apply (main_block_size_builds char_tokenizer [1; 2; 3; 4; 5; 6; 7] (-1) 3). lia.
Defined.

Lemma dataset_items_witness :
  let item := {| shape := [Z.to_nat 3];
                 data := Py.slice [1; 2; 3; 4; 5; 6; 7] (1 * 3) (1 * 3 + 3) |} in
  TextDataset_len [[1; 2; 3]; [4; 5; 6]] = Py.len [1; 2; 3; 4; 5; 6; 7] / 3
  /\ TextDataset_getitem [[1; 2; 3]; [4; 5; 6]] 1 = OK item
  /\ TextDataset_getitem [[1; 2; 3]; [4; 5; 6]]
       (1 - TextDataset_len [[1; 2; 3]; [4; 5; 6]]) = OK item
  /\ TextDataset_getitem [[1; 2; 3]; [4; 5; 6]]
       (TextDataset_len [[1; 2; 3]; [4; 5; 6]]) = Raise IndexError.
Proof.
  apply (dataset_items char_tokenizer [1; 2; 3; 4; 5; 6; 7] 3 [[1; 2; 3]; [4; 5; 6]] 1).
  - lia.
  - intros ids. reflexivity.
  - reflexivity.
  - change (0 <= 1 < 2). lia.
Defined.

End BlockRuns.

(** ** Batches and the inputs of a step *)

Section BatchShapes.
Context {A : Type}.

(** Batch [k] is the [k]-th run of [n] items of the dataset. *)
Lemma batched_lookup (fuel n : nat) (l : list A) (k : nat) (b : list A) :
  (0 < n)%nat ->
  batched fuel n l !! k = Some b ->
  b = take n (drop (k * n) l) /\ (k * n < length l)%nat.
Proof.
  intros Hn. revert l k b. induction fuel as [|fuel IH]; intros l k b Hb; [done|].
  destruct l as [|x l]; [done|].
  change (batched (S fuel) n (x :: l))
    with (take n (x :: l) :: batched fuel n (drop n (x :: l))) in Hb.
  destruct k as [|k].
  - injection Hb as <-. simpl. split; [done|lia].
  - simpl in Hb. apply IH in Hb as [-> Hlt].
    rewrite length_drop in Hlt. split.
    + by rewrite drop_drop.
    + simpl in *. lia.
Qed.

End BatchShapes.

Section StepInputs.

(** What a step binds depends on the bindings of names that are not
    declared only. *)
Lemma bind_inputs_ext (names : list string) (inputs : tensor Z)
    (ort1 ort2 : gmap string (tensor Z)) :
  (forall k, k ∉ names -> ort1 !! k = ort2 !! k) ->
  bind_inputs names inputs ort1 = bind_inputs names inputs ort2.
Proof.
  revert inputs ort1 ort2. induction names as [|n names IH]; intros inputs ort1 ort2 Hsame.
  - simpl. apply map_eq. intros k. apply Hsame. apply not_elem_of_nil.
  - simpl. apply IH. intros k Hk.
    destruct (decide (n = k)) as [->|Hne].
    + by rewrite !lookup_insert_eq.
    + rewrite !lookup_insert_ne by done. apply Hsame.
      intros Hin. apply elem_of_cons in Hin as [->|Hin]; done.
Qed.

Lemma bind_inputs_bound (names : list string) (inputs : tensor Z)
    (ort : gmap string (tensor Z)) (k : string) :
  k ∈ names -> is_Some (bind_inputs names inputs ort !! k).
Proof.
  revert inputs ort. induction names as [|n names IH]; intros inputs ort Hk.
  - by apply elem_of_nil in Hk.
  - simpl. destruct (decide (k ∈ names)) as [Hin|Hnot]; [by apply IH|].
    apply elem_of_cons in Hk as [->|Hk]; [|done].
    rewrite bind_inputs_other by done. rewrite lookup_insert_eq. by eexists.
Qed.

End StepInputs.

Lemma DataLoader_batch (dataset : list (list Z)) (batch_size : Z)
    (batches : list (list (list Z))) (k : nat) (batch : list (list Z)) :
  DataLoader dataset batch_size = OK batches ->
  batches !! k = Some batch ->
  let n := Z.to_nat batch_size in
  batch = take n (drop (k * n) dataset)
  /\ (0 < length batch <= n)%nat
  /\ ((S k < length batches)%nat -> length batch = n).
Proof.
  intros Hload Hk n. unfold DataLoader in Hload.
  destruct (Z.leb_spec batch_size 0); [done|]. injection Hload as <-.
  assert (Hn : (0 < n)%nat) by (unfold n; lia).
  pose proof (batched_lookup _ n dataset k batch Hn Hk) as [-> Hlt].
  split; [done|]. rewrite length_take, length_drop. split; [lia|].
  intros Hnext.
  destruct (lookup_lt_is_Some_2 _ (S k) Hnext) as [next Hnext'].
  apply (batched_lookup _ n dataset (S k) next Hn) in Hnext' as [_ Hlt'].
  simpl in Hlt'. lia.
Qed.

(** The blocks of a fresh build have the block size for length. *)
Lemma blocks_lengths (tokenizer : Tokenizer) (ids : list Z) (B : Z)
    (examples : list (list Z)) :
  0 < B ->
  gpt2_special_tokens tokenizer ->
  blocks tokenizer ids B = OK examples ->
  Forall (fun block => length block = Z.to_nat B) examples.
Proof.
  intros HB Hgpt Hblocks. apply Forall_lookup. intros k block Hk.
  pose proof (blocks_count _ _ _ _ HB Hblocks) as Hcount.
  pose proof (lookup_lt_Some _ _ _ Hk) as Hlt.
  rewrite (blocks_lookup tokenizer ids B examples k HB Hblocks) in Hk
    by (unfold Py.len in *; lia).
  injection Hk as <-. rewrite Hgpt.
  assert (Hfit : Z.of_nat k * B + B <= Py.len ids).
  { pose proof (Z.mul_div_le (Py.len ids) B HB). unfold Py.len in *. nia. }
  pose proof (slice_length ids (Z.of_nat k * B) B ltac:(nia) ltac:(lia) Hfit) as Hs.
  unfold Py.len in Hs. lia.
Qed.

(** X11. The batches of the data loader, for a positive batch size: batch [k]
    is the blocks [k*n .. k*n + n - 1] of the dataset in order; no batch is
    empty or longer than the batch size [n]; every batch but the last has
    exactly [n] blocks. *)
Theorem batches_shape (dataset : list (list Z)) (batch_size : Z)
    (batches : list (list (list Z))) (k : nat) (batch : list (list Z)) :
  DataLoader dataset batch_size = OK batches ->
  batches !! k = Some batch ->
  let n := Z.to_nat batch_size in
  batch = take n (drop (k * n) dataset)
  /\ (0 < length batch <= n)%nat
  /\ ((S k < length batches)%nat -> length batch = n).
Proof. apply DataLoader_batch. Qed.

(** X12. A dataset built with the GPT-2 tokenizer and a positive block size
    always collates: every batch of the data loader stacks to a tensor of
    shape (blocks in the batch, block size), with between one and batch size
    blocks. *)
Theorem fresh_dataset_collates (tokenizer : Tokenizer) (ids : list Z) (B : Z)
    (examples : list (list Z)) (batch_size : Z) (batches : list (list (list Z)))
    (batch : list (list Z)) :
  0 < B ->
  gpt2_special_tokens tokenizer ->
  blocks tokenizer ids B = OK examples ->
  DataLoader examples batch_size = OK batches ->
  batch ∈ batches ->
  collate batch = OK {| shape := [length batch; Z.to_nat B]; data := concat batch |}
  /\ (0 < length batch <= Z.to_nat batch_size)%nat.
Proof.
  intros HB Hgpt Hblocks Hload Hin.
  pose proof (blocks_lengths _ _ _ _ HB Hgpt Hblocks) as Hall.
  apply list_elem_of_lookup in Hin as [k Hk].
  destruct (DataLoader_batch examples batch_size batches k batch Hload Hk)
    as (Hbatch & Hlen & _).
  split; [|done]. apply collate_blocks.
  - intros ->. simpl in Hlen. lia.
  - rewrite Hbatch. by apply Forall_take, Forall_drop.
Qed.

(** A mismatch of block lengths, as a stale or foreign cache file can bring,
    stops the step that meets it. *)
Example ragged_batch : collate [[1; 2; 3]; [4; 5]] = Raise RuntimeError.
Proof. reflexivity. Qed.

(** X13. The dictionary handed to the session depends on the current batch
    only: when the dictionary from the step before binds declared input names
    only, as it does from the first step on, binding the batch gives the same
    dictionary as binding it into an empty one, and it binds the declared
    names and no others. *)
Theorem inputs_hold_current_batch_only (names : list string) (inputs : tensor Z)
    (ort_inputs : gmap string (tensor Z)) :
  (forall k, k ∉ names -> ort_inputs !! k = None) ->
  bind_inputs names inputs ort_inputs = bind_inputs names inputs ∅
  /\ forall k, is_Some (bind_inputs names inputs ort_inputs !! k) <-> k ∈ names.
Proof.
  intros Hdom. split.
  - apply bind_inputs_ext. intros k Hk. by rewrite Hdom, lookup_empty.
  - intros k. split.
    + intros Hsome. destruct (decide (k ∈ names)) as [|Hnot]; [done|].
      rewrite bind_inputs_other, Hdom in Hsome by done. by destruct Hsome.
    + apply bind_inputs_bound.
Qed.

Section BatchRuns.

Lemma batches_shape_witness :
  let n := Z.to_nat 4 in
  [[0; 1]; [1; 0]] = take n (drop (1 * n) six_blocks)
  /\ (0 < length [[0; 1]; [1; 0]] <= n)%nat
  /\ ((2 < length [[[0; 1]; [1; 0]; [1; 1]; [0; 0]]; [[0; 1]; [1; 0]]])%nat ->
      length [[0; 1]; [1; 0]] = n).
Proof.
  apply (batches_shape six_blocks 4
           [[[0; 1]; [1; 0]; [1; 1]; [0; 0]]; [[0; 1]; [1; 0]]] 1 [[0; 1]; [1; 0]]).
  - reflexivity.
  - reflexivity.
Defined.

Lemma fresh_dataset_collates_witness :
  collate [[1; 2; 3]; [4; 5; 6]]
  = OK {| shape := [length [[1; 2; 3]; [4; 5; 6]]; Z.to_nat 3];
          data := concat [[1; 2; 3]; [4; 5; 6]] |}
  /\ (0 < length [[1; 2; 3]; [4; 5; 6]] <= Z.to_nat 4)%nat.
Proof.
  apply (fresh_dataset_collates char_tokenizer [1; 2; 3; 4; 5; 6; 7] 3
           [[1; 2; 3]; [4; 5; 6]] 4 [[[1; 2; 3]; [4; 5; 6]]] [[1; 2; 3]; [4; 5; 6]]).
  - lia.
  - intros ids. reflexivity.
  - reflexivity.
  - reflexivity.
  - apply elem_of_cons. by left.
Defined.

Lemma inputs_hold_current_batch_only_witness :
  let previous : gmap string (tensor Z) :=
    {[ "input1" := {| shape := [1; 1; 2]%nat; data := [7; 8] |} ]} in
  let inputs := {| shape := [1; 2]%nat; data := [0; 1] |} in
  bind_inputs ["input1"] inputs previous = bind_inputs ["input1"] inputs ∅
  /\ forall k, is_Some (bind_inputs ["input1"] inputs previous !! k) <-> k ∈ ["input1"].
Proof.
  apply (inputs_hold_current_batch_only ["input1"]).
  intros k Hk. apply lookup_singleton_ne. intros <-. apply Hk, elem_of_cons. by left.
Defined.

End BatchRuns.

(** ** The clock, the cap and the reports *)

Section LoopMore.
Context `{Arith}.
Variables (args : Args) (session : InferenceSession) (clock : nat -> float).

(** The clock has been read twice for every timed step. *)
Lemma eval_steps_ticks (batches : list (list (list Z))) (st st' : eval_state) :
  0 <= nb_eval_steps st ->
  ticks st = (2 * timed_steps (warmup_steps args) (nb_eval_steps st))%nat ->
  eval_steps args session clock batches st = OK st' ->
  ticks st' = (2 * timed_steps (warmup_steps args) (nb_eval_steps st'))%nat.
Proof.
  revert st. induction batches as [|batch rest IH]; intros st Hk Hticks Hrun.
  - by injection Hrun as <-.
  - simpl in Hrun. unfold eval_step in Hrun.
    destruct (forward session (ort_inputs st) batch) as [[ort loss]|]; [|done].
    simpl in Hrun. apply IH in Hrun; [done|simpl; lia|].
    simpl. rewrite timed_steps_next by done. rewrite Hticks.
    destruct (warmup_steps args <=? nb_eval_steps st); lia.
Qed.

(** A forward pass that fails stops the loop with its error. *)
Lemma eval_steps_fails (batches : list (list (list Z))) (st : eval_state) (e : exn) :
  observed session (ort_inputs st) batches = Raise e ->
  eval_steps args session clock batches st = Raise e.
Proof.
  revert st. induction batches as [|batch rest IH]; intros st Hobs; [done|].
  simpl in Hobs. simpl. unfold eval_step.
  destruct (forward session (ort_inputs st) batch) as [[ort loss]|e'];
    simpl in *; [|by injection Hobs as ->].
  apply IH. simpl.
  destruct (observed session ort rest); simpl in Hobs; [done|by injection Hobs as ->].
Qed.

(** The performance report prints lines of its own only. *)
Lemma performance_report_lines (bs : Z) (st : eval_state) :
  forall o, o ∈ printed (performance_report args bs st) -> is_performance_line o = true.
Proof.
  intros o. unfold performance_report, div_int_float, div_float_int.
  destruct (warmup_steps args <=? nb_eval_steps st); [|simpl; lines].
  destruct (fis_zero (total_time st)); [simpl; lines|]. rewrite lift_ok_bind.
  destruct (bs =? 1); [|simpl; lines].
  destruct (nb_eval_steps st - warmup_steps args =? 0); simpl; lines.
Qed.

End LoopMore.

(** X14. The two windows of a run: the losses of all steps, warm-up steps
    included, are summed, while the clock is read twice in every step from
    step [warmup_steps] on and never in a step before, and the time summed
    is that of those steps. *)
Theorem loss_and_time_windows `{Arith} (args : Args) (session : InferenceSession)
    (clock : nat -> float) (batches : list (list (list Z))) (ls : list float) :
  let n := steps_run args (length batches) in
  observed session ∅ (take n batches) = OK ls ->
  let timed := timed_steps (warmup_steps args) (Z.of_nat n) in
  exists st,
    eval_loop args session clock batches initial_state = OK st
    /\ nb_eval_steps st = Z.of_nat n
    /\ length ls = n
    /\ eval_loss st = fsum ls
    /\ Z.of_nat timed = Z.max 0 (Z.of_nat n - Z.max 0 (warmup_steps args))
    /\ ticks st = (2 * timed)%nat
    /\ total_time st = elapsed clock timed.
Proof.
  intros n Hobs timed.
  destruct (eval_loop_state args session clock batches ls Hobs)
    as (st & Hloop & Hnb & Hloss & Htime & Hlen).
  fold n in Hnb, Htime, Hlen. exists st.
  split; [done|]. split; [done|]. split; [done|]. split; [done|].
  split; [unfold timed, timed_steps; lia|]. split; [|done].
  rewrite eval_loop_prefix in Hloop.
  apply eval_steps_ticks in Hloop; [by rewrite Hloop, Hnb|done|].
  simpl. unfold timed_steps. lia.
Qed.

(** X15. The iteration cap times one step more than it says: with
    [iter > 0], a [warmup_steps] that is not negative and more than
    [warmup_steps + iter] batches, [iter + 1] steps are timed, and
    [nb_eval_steps - warmup_steps], the count the throughput is computed
    from, is [iter + 1]. *)
Theorem cap_times_one_more_step `{Arith} (args : Args) (session : InferenceSession)
    (clock : nat -> float) (batches : list (list (list Z))) (ls : list float) :
  0 < iter args ->
  0 <= warmup_steps args ->
  warmup_steps args + iter args < Py.len batches ->
  observed session ∅ (take (steps_run args (length batches)) batches) = OK ls ->
  exists st,
    eval_loop args session clock batches initial_state = OK st
    /\ nb_eval_steps st - warmup_steps args = iter args + 1
    /\ total_time st = elapsed clock (Z.to_nat (iter args + 1))
    /\ ticks st = (2 * Z.to_nat (iter args + 1))%nat.
Proof.
  intros Hi Hw Hlen Hobs.
  destruct (eval_loop_state args session clock batches ls Hobs)
    as (st & Hloop & Hnb & _ & Htime & _).
  assert (Hn : Z.of_nat (steps_run args (length batches))
               = warmup_steps args + iter args + 1).
  { rewrite steps_run_capped by done. unfold Py.len in Hlen. lia. }
  assert (Htimed : timed_steps (warmup_steps args)
                     (Z.of_nat (steps_run args (length batches)))
                   = Z.to_nat (iter args + 1)).
  { rewrite Hn. unfold timed_steps. lia. }
  exists st. split; [done|]. split; [lia|]. split; [by rewrite Htime, Htimed|].
  rewrite eval_loop_prefix in Hloop.
  apply eval_steps_ticks in Hloop.
  - by rewrite Hloop, Hnb, Htimed.
  - done.
  - simpl. unfold timed_steps. lia.
Qed.

(** X16. The loop never makes more steps than there are batches and, when
    there is a batch, makes at least one, whatever the cap; a cap [iter > 0]
    with at most [warmup_steps + iter + 1] batches stops nothing. *)
Theorem step_count_bounds `{Arith} (args : Args) (session : InferenceSession)
    (clock : nat -> float) (batches : list (list (list Z))) (ls : list float) :
  observed session ∅ (take (steps_run args (length batches)) batches) = OK ls ->
  exists st,
    eval_loop args session clock batches initial_state = OK st
    /\ nb_eval_steps st <= Py.len batches
    /\ (batches <> [] -> 1 <= nb_eval_steps st)
    /\ (0 < iter args -> Py.len batches <= warmup_steps args + iter args + 1 ->
        nb_eval_steps st = Py.len batches).
Proof.
  intros Hobs.
  destruct (eval_loop_state args session clock batches ls Hobs)
    as (st & Hloop & Hnb & _).
  exists st. split; [done|]. rewrite Hnb. unfold steps_run, steps_from, Py.len.
  split; [|split].
  - destruct (0 <? iter args); lia.
  - intros Hne. assert (0 < length batches)%nat by (destruct batches; [done|simpl; lia]).
    destruct (0 <? iter args); lia.
  - intros Hi Hlen. destruct (Z.ltb_spec 0 (iter args)); lia.
Qed.

(** X17. A step whose forward pass fails ends the run with the error of that
    step, and the run prints nothing: what the steps before have accumulated
    is lost. *)
Theorem failed_step_reports_nothing `{Arith} (args : Args) (session : InferenceSession)
    (clock : nat -> float) (eval_dataset : list (list Z))
    (batches : list (list (list Z))) (e : exn) :
  DataLoader eval_dataset (eval_batch_size args) = OK batches ->
  observed session ∅ (take (steps_run args (length batches)) batches) = Raise e ->
  evaluate_dataset args session clock eval_dataset = IO [] (Raise e).
Proof.
  intros Hload Hobs. unfold evaluate_dataset.
  rewrite Hload, lift_ok_bind, eval_loop_prefix. simpl nb_eval_steps.
  fold (steps_run args (length batches)).
  by rewrite (eval_steps_fails args session clock _ initial_state e Hobs).
Qed.

(** X18. The accuracy line: it is printed only in benchmark mode "accuracy",
    after the batch size, and the accuracy it shows is the value the run
    returns; in that mode every run that returns prints it. *)
Theorem printed_accuracy_is_returned `{Arith} (args : Args) (session : InferenceSession)
    (clock : nat -> float) (eval_dataset : list (list Z)) :
  let run := evaluate_dataset args session clock eval_dataset in
  (forall accuracy, PrintAccuracy accuracy ∈ printed run ->
     benchmark args = true /\ mode args = "accuracy"
     /\ outcome run = OK accuracy
     /\ PrintBatchSize (eval_batch_size args) ∈ printed run)
  /\ (forall accuracy, outcome run = OK accuracy ->
        benchmark args = true -> mode args = "accuracy" ->
        PrintAccuracy accuracy ∈ printed run).
Proof.
  intros run. unfold run, evaluate_dataset.
  destruct (DataLoader eval_dataset (eval_batch_size args)) as [batches|e];
    [|split; [intros a Ha; by apply elem_of_nil in Ha|done]].
  rewrite lift_ok_bind.
  destruct (eval_loop args session clock batches initial_state) as [st|e];
    [|split; [intros a Ha; by apply elem_of_nil in Ha|done]].
  rewrite lift_ok_bind.
  pose proof (performance_report_lines args (eval_batch_size args) st) as Hperf.
  destruct (performance_report args (eval_batch_size args) st) as [perf_lines [[]|e]];
    simpl in Hperf.
  2:{ split; [|done]. intros a Ha. simpl in Ha. by apply Hperf in Ha. }
  unfold accuracy_report, div_float_int.
  destruct (nb_eval_steps st =? 0).
  { split; [|done]. intros a Ha. simpl in Ha. rewrite app_nil_r in Ha.
    by apply Hperf in Ha. }
  rewrite lift_ok_bind.
  destruct (benchmark args) eqn:Hb; simpl.
  - destruct (String.eqb_spec (mode args) "accuracy") as [Hm|Hm]; simpl.
    + split.
      * intros a Ha. apply elem_of_app in Ha as [Ha|Ha]; [by apply Hperf in Ha|].
        revert Ha. lines.
      * intros a [= <-] _ _. lines.
    + split; [|done].
      intros a Ha. apply elem_of_app in Ha as [Ha|Ha]; [by apply Hperf in Ha|].
      revert Ha. lines.
  - split; [|done].
    intros a Ha. apply elem_of_app in Ha as [Ha|Ha]; [by apply Hperf in Ha|].
    revert Ha. lines.
Qed.

(** X19. A dataset without blocks, which a corpus shorter than one block
    gives, always ends in a [ZeroDivisionError]: after the diagnostic when
    [warmup_steps] is positive (the mean of the loss divides by zero steps),
    and in the performance report otherwise. *)
Theorem empty_dataset_raises `{Arith} (args : Args) (session : InferenceSession)
    (clock : nat -> float) :
  0 < eval_batch_size args ->
  fis_zero fzero = true ->
  evaluate_dataset args session clock []
  = if 0 <? warmup_steps args
    then IO [LogNoPerformance] (Raise ZeroDivisionError)
    else IO [] (Raise ZeroDivisionError).
Proof.
  intros Hbs Hz.
  rewrite (evaluate_dataset_reports args session clock [] [] initial_state).
  - unfold performance_report, accuracy_report, div_int_float, div_float_int.
    cbn [nb_eval_steps total_time eval_loss initial_state].
    destruct (Z.ltb_spec 0 (warmup_steps args)).
    + destruct (Z.leb_spec (warmup_steps args) 0); [lia|]. reflexivity.
    + destruct (Z.leb_spec (warmup_steps args) 0); [|lia].
      rewrite Hz. reflexivity.
  - unfold DataLoader. destruct (Z.leb_spec (eval_batch_size args) 0); [lia|done].
  - done.
Qed.

Section LoopRuns.

#[local] Existing Instance real_arith.

Lemma loss_and_time_windows_witness :
  let args := run_args 1 1 0 in
  let batches := [[[0; 1]]; [[1; 0]]] in
  let ls := [uniform_loss 1; uniform_loss 0] in
  let n := steps_run args (length batches) in
  let timed := timed_steps (warmup_steps args) (Z.of_nat n) in
  exists st,
    eval_loop args uniform_session second_clock batches initial_state = OK st
    /\ nb_eval_steps st = Z.of_nat n
    /\ length ls = n
    /\ eval_loss st = fsum ls
    /\ Z.of_nat timed = Z.max 0 (Z.of_nat n - Z.max 0 (warmup_steps args))
    /\ ticks st = (2 * timed)%nat
    /\ total_time st = elapsed second_clock timed.
Proof.
  apply (loss_and_time_windows (run_args 1 1 0) uniform_session second_clock
           [[[0; 1]]; [[1; 0]]] [uniform_loss 1; uniform_loss 0]).
  reflexivity.
Defined.

Lemma cap_times_one_more_step_witness :
  let args := run_args 1 2 3 in
  let batches := map (fun block => [block]) six_blocks in
  exists st,
    eval_loop args uniform_session second_clock batches initial_state = OK st
    /\ nb_eval_steps st - warmup_steps args = iter args + 1
    /\ total_time st = elapsed second_clock (Z.to_nat (iter args + 1))
    /\ ticks st = (2 * Z.to_nat (iter args + 1))%nat.
Proof.
  intros args batches.
  assert (Hobs : exists ls,
            observed uniform_session ∅ (take (steps_run args (length batches)) batches)
            = OK ls) by (eexists; reflexivity).
  destruct Hobs as [ls Hobs].
  apply (cap_times_one_more_step args uniform_session second_clock batches ls).
  - reflexivity.
  - discriminate.
  - reflexivity.
  - exact Hobs.
Defined.

Lemma step_count_bounds_witness :
  let args := run_args 1 2 3 in
  let batches := [[[0; 1]]; [[1; 0]]] in
  exists st,
    eval_loop args uniform_session second_clock batches initial_state = OK st
    /\ nb_eval_steps st <= Py.len batches
    /\ (batches <> [] -> 1 <= nb_eval_steps st)
    /\ (0 < iter args -> Py.len batches <= warmup_steps args + iter args + 1 ->
        nb_eval_steps st = Py.len batches).
Proof.
  apply (step_count_bounds (run_args 1 2 3) uniform_session second_clock
           [[[0; 1]]; [[1; 0]]] [uniform_loss 1; uniform_loss 0]).
  reflexivity.
Defined.

Lemma failed_step_reports_nothing_witness :
  evaluate_dataset (run_args 1 0 0) silent_session second_clock [[0; 1]; [1; 0]]
  = IO [] (Raise IndexError).
Proof.
  apply (failed_step_reports_nothing (run_args 1 0 0) silent_session second_clock
           [[0; 1]; [1; 0]] [[[0; 1]]; [[1; 0]]] IndexError).
  - reflexivity.
  - reflexivity.
Defined.

Lemma empty_dataset_raises_witness :
  evaluate_dataset (run_args 1 2 0) uniform_session second_clock []
  = if 0 <? warmup_steps (run_args 1 2 0)
    then IO [LogNoPerformance] (Raise ZeroDivisionError)
    else IO [] (Raise ZeroDivisionError).
Proof.
  apply (empty_dataset_raises (run_args 1 2 0) uniform_session second_clock).
  - reflexivity.
  - exact real_zero_is_zero.
Defined.

End LoopRuns.

(** ** Repeated evaluation and [main] *)

Section Traces.
Context `{Codec}.

(** What a construction adds to the trace: the load line, or the lines of a
    build around one call of the tokenizer. *)
Lemma TextDataset_trace (tokenizer : Tokenizer) (args : Args) (file_path : string)
    (B : Z) (w w' : world) (examples : list (list Z)) :
  TextDataset tokenizer args file_path B w = OK (examples, w') ->
  let key := cached_features_file (model_name_or_path args) B file_path in
  (overwrite_cache args = false /\ trace w' = trace w ++ [LogLoading key])
  \/ exists text,
       trace w' = trace w ++ [LogCreating (Py.path_head file_path);
                              CallTokenize text; LogSaving key].
Proof.
  intros Hrun key. unfold TextDataset in Hrun.
  destruct (os.isfile (fs w) file_path); simpl in Hrun; [|done].
  destruct (if negb (os.exists_ (fs w) cache_dir) then _ else _) as [f1|];
    simpl in Hrun; [|done].
  fold key in Hrun.
  destruct (os.exists_ f1 key && negb (overwrite_cache args)) eqn:Hbranch.
  - destruct (os.read f1 key) as [d|]; simpl in Hrun; [|done].
    destruct (pickle_loads d); simpl in Hrun; [|done].
    injection Hrun as _ <-. left. split; [|done].
    apply andb_prop in Hbranch as [_ Hov]. by destruct (overwrite_cache args).
  - destruct (os.read f1 file_path) as [d|]; simpl in Hrun; [|done].
    destruct (utf8_decode d) as [text|]; simpl in Hrun; [|done].
    destruct (blocks _ _ _) as [ex|]; simpl in Hrun; [|done].
    destruct (os.write f1 key _) as [f2|]; simpl in Hrun; [|done].
    injection Hrun as _ <-. right. by exists text.
Qed.

Lemma tokenizer_calls_app (w : world) (f : gmap string node) (events : list event) :
  tokenizer_calls {| fs := f; trace := trace w ++ events |}
  = (tokenizer_calls w + length (List.filter is_tokenize events))%nat.
Proof. unfold tokenizer_calls. simpl. by rewrite List.filter_app, length_app. Qed.

Lemma TextDataset_calls (tokenizer : Tokenizer) (args : Args) (file_path : string)
    (B : Z) (w w' : world) (examples : list (list Z)) :
  TextDataset tokenizer args file_path B w = OK (examples, w') ->
  (tokenizer_calls w <= tokenizer_calls w' <= S (tokenizer_calls w))%nat.
Proof.
  intros Hrun. destruct (TextDataset_trace _ _ _ _ _ _ _ Hrun) as [[_ Ht]|[text Ht]];
    unfold tokenizer_calls; rewrite Ht, List.filter_app, length_app; simpl; lia.
Qed.

End Traces.

(** [evaluate] in the world a successful construction has left. *)
Lemma evaluate_loaded `{Codec} `{!PickleRoundTrip} `{Arith}
    (args : Args) (session : InferenceSession) (tokenizer tokenizer' : Tokenizer)
    (clock : nat -> float) (w w1 : world) (eval_dataset : list (list Z)) :
  overwrite_cache args = false ->
  load_and_cache_examples args tokenizer w = OK (eval_dataset, w1) ->
  let key := cached_features_file (model_name_or_path args) (block_size args)
               (eval_data_file args) in
  evaluate args session tokenizer' clock w1
  = (evaluate_dataset args session clock eval_dataset,
     {| fs := fs w1; trace := trace w1 ++ [LogLoading key] |}).
Proof.
  intros Hov Hload key. unfold evaluate, load_and_cache_examples in *.
  apply TextDataset_leaves in Hload as (Hfile & Hdir & data & Hkey & Hdata).
  rewrite (TextDataset_load tokenizer' args _ _ w1 data eval_dataset) by done.
  by rewrite Hdata.
Qed.

(** X20. Evaluating again, as a tuning driver does with the evaluation
    function: when [evaluate] has got its dataset and [overwrite_cache] is
    off, a later call of [evaluate], whatever tokenizer it is given, loads
    that same dataset from the cache, runs the same evaluation on it and
    calls no tokenizer. *)
Theorem evaluate_again_uses_cache `{Codec} `{!PickleRoundTrip} `{Arith}
    (args : Args) (session : InferenceSession) (tokenizer tokenizer' : Tokenizer)
    (clock : nat -> float) (w w1 : world) (eval_dataset : list (list Z)) :
  overwrite_cache args = false ->
  load_and_cache_examples args tokenizer w = OK (eval_dataset, w1) ->
  let key := cached_features_file (model_name_or_path args) (block_size args)
               (eval_data_file args) in
  let w2 := {| fs := fs w1; trace := trace w1 ++ [LogLoading key] |} in
  evaluate args session tokenizer clock w
  = (evaluate_dataset args session clock eval_dataset, w1)
  /\ evaluate args session tokenizer' clock w1
     = (evaluate_dataset args session clock eval_dataset, w2)
  /\ tokenizer_calls w2 = tokenizer_calls w1.
Proof.
  intros Hov Hload key w2. split; [|split].
  - unfold evaluate. by rewrite Hload.
  - by apply (evaluate_loaded args session tokenizer tokenizer' clock w w1).
  - unfold w2. rewrite tokenizer_calls_app. simpl. lia.
Qed.

(** X21. [main] builds or loads the dataset itself before [evaluate] does so
    again.  Without [overwrite_cache], when the first of the two succeeds,
    the benchmark run evaluates that same dataset, loaded from the cache, at
    the block size [main] has settled on, and the tokenizer is called at most
    once in all. *)
Theorem main_tokenizes_at_most_once `{Codec} `{!PickleRoundTrip} `{Arith}
    (args : Args) (max_len_single_sentence : Z) (tokenizer : Tokenizer)
    (model : InferenceSession) (clock : nat -> float) (w w1 : world)
    (ds : list (list Z)) :
  let args' := set_block_size args
                 (main_block_size (block_size args) max_len_single_sentence) in
  overwrite_cache args = false ->
  benchmark args = true ->
  load_and_cache_examples args' tokenizer w = OK (ds, w1) ->
  exists w2,
    main_benchmark args max_len_single_sentence tokenizer model clock w
    = (evaluate_dataset args' model clock ds ≫= (fun _ => mret ()), w2)
    /\ fs w2 = fs w1
    /\ (tokenizer_calls w <= tokenizer_calls w2 <= S (tokenizer_calls w))%nat.
Proof.
  intros args' Hov Hbench Hload.
  pose proof (TextDataset_calls _ _ _ _ _ _ _ Hload) as Hcalls.
  eexists. split; [|split].
  - unfold main_benchmark. fold args'. rewrite Hload.
    replace (benchmark args') with true by (symmetry; exact Hbench).
    rewrite (evaluate_loaded args' model tokenizer tokenizer clock w w1 ds Hov Hload).
    reflexivity.
  - done.
  - rewrite tokenizer_calls_app. simpl. lia.
Qed.

Section MainRuns.

#[local] Existing Instance real_arith.

Lemma evaluate_again_uses_cache_witness :
  let key := cached_features_file "gpt2" 3 "wiki.txt" in
  let w2 : @world plain_codec :=
    {| fs := fs demo_world_built; trace := trace demo_world_built ++ [LogLoading key] |} in
  evaluate demo_args uniform_session char_tokenizer second_clock demo_world
  = (evaluate_dataset demo_args uniform_session second_clock demo_examples,
     demo_world_built)
  /\ evaluate demo_args uniform_session char_tokenizer second_clock demo_world_built
     = (evaluate_dataset demo_args uniform_session second_clock demo_examples, w2)
  /\ tokenizer_calls w2 = tokenizer_calls demo_world_built.
Proof.
  apply (@evaluate_again_uses_cache plain_codec plain_round_trip real_arith demo_args
           uniform_session char_tokenizer char_tokenizer second_clock demo_world
           demo_world_built demo_examples).
  - reflexivity.
  - vm_compute. reflexivity.
Defined.

Lemma main_tokenizes_at_most_once_witness :
  let args' := set_block_size demo_args (main_block_size (block_size demo_args) 1024) in
  exists w2 : @world plain_codec,
    main_benchmark demo_args 1024 char_tokenizer uniform_session second_clock demo_world
    = (evaluate_dataset args' uniform_session second_clock demo_examples
         ≫= (fun _ => mret ()), w2)
    /\ fs w2 = fs demo_world_built
    /\ (tokenizer_calls demo_world <= tokenizer_calls w2
        <= S (tokenizer_calls demo_world))%nat.
Proof.
  apply (@main_tokenizes_at_most_once plain_codec plain_round_trip real_arith
           demo_args 1024 char_tokenizer uniform_session second_clock demo_world
           demo_world_built demo_examples).
  - reflexivity.
  - reflexivity.
  - vm_compute. reflexivity.
Defined.

End MainRuns.

(** ** [main] with [overwrite_cache] *)

Section Rebuild.
Context `{Codec}.

Lemma substring_length (n : nat) (s : string) :
  (String.length (substring 0 n s) <= n)%nat.
Proof.
  revert s. induction n as [|n IH]; intros [|c s]; simpl; try lia.
  specialize (IH s). lia.
Qed.

Lemma rstrip_sep_length (s : string) :
  (String.length (Py.rstrip_sep s) <= String.length s)%nat.
Proof.
  induction s as [|c s IH]; simpl; [lia|].
  destruct (Py.rstrip_sep s); simpl in *; [destruct (Ascii.eqb c "/"); simpl; lia|lia].
Qed.

Lemma after_last_sep_length (p t : string) :
  Py.after_last_sep p = Some t -> (String.length t < String.length p)%nat.
Proof.
  revert t. induction p as [|c p IH]; intros t; simpl; [done|].
  destruct (Py.after_last_sep p) as [t'|].
  - intros [= <-]. specialize (IH t' eq_refl). lia.
  - destruct (Ascii.eqb c "/"); [|done]. intros [= <-]. lia.
Qed.

(** The directory part of a path that has a file name is shorter than the
    path. *)
Lemma path_head_shorter (p : string) :
  (1 <= String.length (Py.path_tail p))%nat ->
  (String.length (Py.path_head p) < String.length p)%nat.
Proof.
  unfold Py.path_tail, Py.path_head.
  destruct (Py.after_last_sep p) as [t|] eqn:Hp; intros Ht.
  - pose proof (after_last_sep_length p t Hp) as Hlt.
    pose proof (substring_length (String.length p - String.length t) p) as Hs.
    pose proof (rstrip_sep_length
                  (substring 0 (String.length p - String.length t) p)) as Hr.
    destruct (Py.rstrip_sep _); simpl in *; lia.
  - simpl. lia.
Qed.

Lemma cache_key_tail (m : string) (b : Z) (file_path : string) :
  (1 <= String.length (Py.path_tail (cached_features_file m b file_path)))%nat.
Proof.
  set (filename := Py.path_tail file_path).
  assert (Hform : exists X, cached_features_file m b file_path
                            = X +:+ ("_" +:+ filename)).
  { rewrite cached_features_file_cases. fold filename.
    destruct (Py.startswith_sep m).
    - exists (m +:+ "_cached_lm_" +:+ Py.str b). by rewrite !string_app_assoc.
    - exists ("./dataset_cached/" +:+ m +:+ "_cached_lm_" +:+ Py.str b).
      by rewrite !string_app_assoc. }
  destruct Hform as [X ->]. rewrite path_tail_app.
  - rewrite !string_length_app. simpl. lia.
  - change ("_" +:+ filename) with (String "_" filename). simpl.
    unfold filename. by rewrite path_tail_no_sep.
Qed.

(** Writing the cache file does not remove the directory it goes into. *)
Lemma parent_exists_written (f : gmap string node) (m : string) (b : Z)
    (file_path : string) (n : node) :
  let key := cached_features_file m b file_path in
  os.parent_exists f key = true -> os.parent_exists (<[key := n]> f) key = true.
Proof.
  intros key. unfold os.parent_exists.
  destruct (Py.rstrip_sep (Py.path_head key)); [done|].
  rewrite lookup_insert_ne; [done|].
  intros E. pose proof (path_head_shorter key (cache_key_tail m b file_path)) as Hlt.
  rewrite <- E in Hlt. lia.
Qed.

(** The build branch of the constructor, with the cache directory in place. *)
Lemma TextDataset_build (tokenizer : Tokenizer) (args : Args) (file_path : string)
    (B : Z) (w : world) (data : bytes) (text : string) (examples : list (list Z))
    (f2 : gmap string node) :
  let key := cached_features_file (model_name_or_path args) B file_path in
  os.exists_ (fs w) cache_dir = true ->
  fs w !! file_path = Some (File data) ->
  utf8_decode data = OK text ->
  overwrite_cache args = true ->
  blocks tokenizer (convert_tokens_to_ids tokenizer (tokenize tokenizer text)) B
  = OK examples ->
  os.write (fs w) key (pickle_dumps examples) = OK f2 ->
  TextDataset tokenizer args file_path B w
  = OK (examples,
        {| fs := f2;
           trace := trace w ++ [LogCreating (Py.path_head file_path);
                                CallTokenize text; LogSaving key] |}).
Proof.
  intros key Hdir Hfile Hdecode Hov Hblocks Hwrite.
  unfold TextDataset, os.isfile. rewrite Hfile, Hdir. simpl.
  fold key. rewrite Hov, andb_false_r. unfold os.read. rewrite Hfile. simpl.
  rewrite Hdecode. simpl. rewrite Hblocks. simpl. rewrite Hwrite. done.
Qed.

(** A construction with [overwrite_cache] in the world a construction with
    [overwrite_cache] has left: the same blocks are built and written again. *)
Lemma TextDataset_rebuild (tokenizer : Tokenizer) (args : Args) (file_path : string)
    (B : Z) (w w1 : world) (examples : list (list Z)) :
  overwrite_cache args = true ->
  TextDataset tokenizer args file_path B w = OK (examples, w1) ->
  let key := cached_features_file (model_name_or_path args) B file_path in
  exists text,
    trace w1 = trace w ++ [LogCreating (Py.path_head file_path);
                           CallTokenize text; LogSaving key]
    /\ TextDataset tokenizer args file_path B w1
       = OK (examples,
             {| fs := fs w1;
                trace := trace w1 ++ [LogCreating (Py.path_head file_path);
                                      CallTokenize text; LogSaving key] |}).
Proof.
  intros Hov Hrun key. unfold TextDataset in Hrun.
  destruct (os.isfile (fs w) file_path) eqn:Hfile; simpl in Hrun; [|done].
  destruct (if negb (os.exists_ (fs w) cache_dir) then _ else _) as [f1|] eqn:Hf1;
    simpl in Hrun; [|done].
  apply makedirs_step in Hf1 as [Hdir1 Hsame].
  fold key in Hrun. rewrite Hov, andb_false_r in Hrun.
  destruct (os.read f1 file_path) as [d|] eqn:Hread; simpl in Hrun; [|done].
  destruct (utf8_decode d) as [text|] eqn:Hdecode; simpl in Hrun; [|done].
  destruct (blocks _ _ _) as [ex|] eqn:Hblocks; simpl in Hrun; [|done].
  destruct (os.write f1 key _) as [f2|] eqn:Hw; simpl in Hrun; [|done].
  injection Hrun as <- <-. exists text. split; [done|].
  pose proof Hw as Hw'. apply write_inv in Hw' as ->.
  assert (Hparent : os.parent_exists f1 key = true).
  { unfold os.write in Hw. destruct (f1 !! key) as [[|]|];
      destruct (os.parent_exists f1 key); done. }
  assert (Hd : f1 !! file_path = Some (File d)).
  { unfold os.read in Hread. destruct (f1 !! file_path) as [[|d']|]; try done.
    by injection Hread as ->. }
  apply (TextDataset_build tokenizer args file_path B _ d text ex); simpl; try done.
  - by apply exists_insert.
  - rewrite lookup_insert_ne; [done|]. apply cache_key_not_source.
  - fold key. unfold os.write. rewrite lookup_insert_eq.
    rewrite (parent_exists_written f1 _ _ _ _ Hparent).
    by rewrite insert_insert_eq.
Qed.

End Rebuild.

(** X22. With [overwrite_cache], a benchmark run of [main] builds the dataset
    twice, once in [main] and once more in [evaluate]: the tokenizer is
    called twice on the same text, the same blocks are written twice, and
    the evaluation runs on them. *)
Theorem main_overwrite_tokenizes_twice `{Codec} `{Arith}
    (args : Args) (max_len_single_sentence : Z) (tokenizer : Tokenizer)
    (model : InferenceSession) (clock : nat -> float) (w w1 : world)
    (ds : list (list Z)) :
  let args' := set_block_size args
                 (main_block_size (block_size args) max_len_single_sentence) in
  overwrite_cache args = true ->
  benchmark args = true ->
  load_and_cache_examples args' tokenizer w = OK (ds, w1) ->
  exists w2,
    main_benchmark args max_len_single_sentence tokenizer model clock w
    = (evaluate_dataset args' model clock ds ≫= (fun _ => mret ()), w2)
    /\ fs w2 = fs w1
    /\ tokenizer_calls w2 = S (S (tokenizer_calls w)).
Proof.
  intros args' Hov Hbench Hload.
  destruct (TextDataset_rebuild tokenizer args' _ _ w w1 ds Hov Hload)
    as (text & Htrace & Hagain).
  eexists. split; [|split].
  - unfold main_benchmark. fold args'. rewrite Hload.
    replace (benchmark args') with true by (symmetry; exact Hbench).
    unfold evaluate, load_and_cache_examples. rewrite Hagain. reflexivity.
  - done.
  - rewrite tokenizer_calls_app. unfold tokenizer_calls. rewrite Htrace.
    rewrite List.filter_app, length_app. simpl. lia.
Qed.

Section OverwriteRuns.

#[local] Existing Instance real_arith.

Lemma main_overwrite_tokenizes_twice_witness :
  let args' := set_block_size demo_args_overwrite
                 (main_block_size (block_size demo_args_overwrite) 1024) in
  exists w2 : @world plain_codec,
    main_benchmark demo_args_overwrite 1024 char_tokenizer uniform_session
      second_clock demo_world
    = (evaluate_dataset args' uniform_session second_clock demo_examples
         ≫= (fun _ => mret ()), w2)
    /\ fs w2 = fs demo_world_built
    /\ tokenizer_calls w2 = S (S (tokenizer_calls demo_world)).
Proof.
  apply (@main_overwrite_tokenizes_twice plain_codec real_arith demo_args_overwrite
           1024 char_tokenizer uniform_session second_clock demo_world
           demo_world_built demo_examples).
  - reflexivity.
  - reflexivity.
  - vm_compute. reflexivity.
Defined.

End OverwriteRuns.
